(** * stockpile-api: the generic endpoint factory and the token lifecycle

    A shallow embedding of [services/endpoint.js] and [controllers/auth.js].
    JavaScript values are an inductive type with the language's truthiness
    and strict equality written out; promise chains are a state-and-rejection
    monad over the row store and the response channel.  The row gateway
    [services/db.js] and the query builder under it are modelled from the
    specification and from the gateway's test data. *)

From Stdlib Require Import String Ascii List ZArith Bool Lia DecimalString
  DecimalPos.
Import ListNotations.
Open Scope string_scope.
Open Scope list_scope.

#[local] Set Warnings "-register-all".

(** ** JavaScript values *)

Module Js.

(** Numbers are the integral ones: identifiers, counts and status codes,
    which as doubles are exact up to [2^53] in size. *)
Inductive value : Type :=
| Undefined
| Null
| Boolean (b : bool)
| Num (z : Z)
| Str (s : string)
| Obj (props : list (string * value))
| Arr (items : list value).

Definition object := list (string * value).

(** [ToBoolean]: the operand test of [if], [&&], [||] and [!]. *)
Definition truthy (v : value) : bool :=
  match v with
  | Undefined | Null => false
  | Boolean b => b
  | Num z => negb (z =? 0)%Z
  | Str s => negb (s =? "")
  | Obj _ | Arr _ => true
  end.

(** [a || b] and [a && b] return one of their operands. *)
Definition or_else (a b : value) : value := if truthy a then a else b.
Definition and_then (a b : value) : value := if truthy a then b else a.

(** [a === b].  Objects and arrays compare by identity; the values that meet
    here come from different sources (a request and a stored row), so two of
    them are never the same object. *)
Definition strict_eq (a b : value) : bool :=
  match a, b with
  | Undefined, Undefined => true
  | Null, Null => true
  | Boolean x, Boolean y => Bool.eqb x y
  | Num x, Num y => (x =? y)%Z
  | Str x, Str y => (x =? y)
  | _, _ => false
  end.

(** The names that every object answers to without holding them, the
    members of [Object.prototype]. *)
Definition prototype_members : list string :=
  [ "constructor"; "__proto__"; "hasOwnProperty"; "isPrototypeOf";
    "propertyIsEnumerable"; "toLocaleString"; "toString"; "valueOf";
    "__defineGetter__"; "__defineSetter__"; "__lookupGetter__";
    "__lookupSetter__" ].

Definition inherited (k : string) : bool :=
  existsb (String.eqb k) prototype_members.

(** [o[k]] on an object literal, for a key that is not [inherited]:
    [undefined] when the key is absent.  The keys that the code looks up
    are column names and the names it spells out itself. *)
Fixpoint get (o : object) (k : string) : value :=
  match o with
  | [] => Undefined
  | (k', v) :: o' => if k' =? k then v else get o' k
  end.

(** [v.k] where an earlier access has shown [v] not to be [undefined] or
    [null]: a primitive has no such property. *)
Definition prop (v : value) (k : string) : value :=
  match v with
  | Obj props => get props k
  | _ => Undefined
  end.

(** [Object.keys(o)] and [keys.includes(k)]. *)
Definition keys (o : object) : list string := map fst o.

Fixpoint includes (ks : list string) (k : string) : bool :=
  match ks with
  | [] => false
  | k' :: ks' => (k' =? k) || includes ks' k
  end.

(** [o[k] = v]: an existing key keeps its place, a new key goes last. *)
Fixpoint set (o : object) (k : string) (v : value) : object :=
  match o with
  | [] => [(k, v)]
  | (k', v') :: o' => if k' =? k then (k', v) :: o' else (k', v') :: set o' k v
  end.

(** Decimal rendering of an integral number, as [String(n)] gives it. *)
Definition num_to_string (z : Z) : string :=
  NilZero.string_of_int (Z.to_int z).

Fixpoint join (sep : string) (l : list string) : string :=
  match l with
  | [] => ""
  | [s] => s
  | s :: l' => s ++ sep ++ join sep l'
  end.

(** [String(v)], the conversion that [+] applies next to a string. *)
Fixpoint to_string (v : value) : string :=
  match v with
  | Undefined => "undefined"
  | Null => "null"
  | Boolean true => "true"
  | Boolean false => "false"
  | Num z => num_to_string z
  | Str s => s
  | Obj _ => "[object Object]"
  | Arr items =>
      join "," (map (fun i => match i with
                              | Undefined | Null => ""
                              | _ => to_string i
                              end) items)
  end.

(** [a + b] where at least one side is a string, or both are numbers. *)
Definition add (a b : value) : value :=
  match a, b with
  | Num x, Num y => Num (x + y)
  | _, _ => Str (to_string a ++ to_string b)
  end.

End Js.

(** ** Errors, the response channel and promise chains *)

Module Http.

(** The restify error classes the handlers construct. *)
Inductive kind : Type :=
| BadRequest
| Unauthorized
| Forbidden
| NotFound
| Conflict
| InternalServer.

End Http.

(** What a promise can reject with or a callback can throw. *)
Inductive error : Type :=
| HttpError (k : Http.kind) (message : Js.value)
| StoreError (code : Js.value) (sqlMessage : Js.value)
| TypeError (message : string)
| LibraryError (message : string).

(** [err.code] and [err.sqlMessage]: only the store's errors carry them. *)
Definition err_code (e : error) : Js.value :=
  match e with
  | StoreError c _ => c
  | _ => Js.Undefined
  end.

Definition err_sqlMessage (e : error) : Js.value :=
  match e with
  | StoreError _ m => m
  | _ => Js.Undefined
  end.

(** What a handler does to its [res], [next] and [req.log]. *)
Inductive event : Type :=
| Send (status : Z) (body : Js.value)
| Links (rel : Js.value)
| Next (e : option error)
| LogError (e : error).

(** Tables are lists of rows in the order the store yields them. *)
Definition database := list (string * list Js.object).

(** The world a request runs in: the store, the failures the collaborators
    (store driver, bcrypt, signing) are about to produce, one entry per call,
    the random material still to be drawn, and the events emitted so far. *)
Record world : Type := World {
  db : database;
  faults : list (option error);
  entropy : list string;
  out : list event
}.

Inductive settled (A : Type) : Type :=
| Resolved (a : A)
| Rejected (e : error).
Arguments Resolved {A} a.
Arguments Rejected {A} e.

(** A promise chain: runs in a world, settles, leaves a world. The world
    changes made before a rejection stay. *)
Definition M (A : Type) : Type := world -> settled A * world.

Definition ret {A} (a : A) : M A := fun w => (Resolved a, w).

Definition throw {A} (e : error) : M A := fun w => (Rejected e, w).

(** A call that returns or throws without a look at the world. *)
Definition settle {A} (r : settled A) : M A := fun w => (r, w).

(** [p.then(k)] *)
Definition bind {A B} (p : M A) (k : A -> M B) : M B :=
  fun w =>
    match p w with
    | (Resolved a, w') => k a w'
    | (Rejected e, w') => (Rejected e, w')
    end.

(** [p.catch(h)] *)
Definition catch {A} (p : M A) (h : error -> M A) : M A :=
  fun w =>
    match p w with
    | (Resolved a, w') => (Resolved a, w')
    | (Rejected e, w') => h e w'
    end.

Declare Scope promise_scope.
Delimit Scope promise_scope with promise.
Notation "x <- p ;; k" := (bind p (fun x => k))
  (at level 100, p at next level, right associativity) : promise_scope.
Notation "p ;; k" := (bind p (fun _ => k))
  (at level 100, right associativity) : promise_scope.
Open Scope promise_scope.

Definition emit (ev : event) : M unit :=
  fun w => (Resolved tt, World (db w) (faults w) (entropy w) (out w ++ [ev])).

(** [res.send(body)] answers 200; [res.send(code)] and [res.send(code, body)]
    answer with that code. *)
Definition res_send (body : Js.value) : M unit := emit (Send 200 body).
Definition res_send_code (code : Z) (body : Js.value) : M unit :=
  emit (Send code body).

Definition next : M unit := emit (Next None).
Definition next_err (e : error) : M unit := emit (Next (Some e)).
Definition log_error (e : error) : M unit := emit (LogError e).

(** A call into a collaborator: it fails when the world says so. *)
Definition external : M unit :=
  fun w =>
    match faults w with
    | Some e :: fs => (Rejected e, World (db w) fs (entropy w) (out w))
    | None :: fs => (Resolved tt, World (db w) fs (entropy w) (out w))
    | [] => (Resolved tt, w)
    end.

(** [o.k] on a value: reading a property of [undefined] or [null] throws. *)
Definition member (o : Js.value) (k : string) : M Js.value :=
  match o with
  | Js.Undefined => throw (TypeError ("Cannot read property '" ++ k ++ "' of undefined"))
  | Js.Null => throw (TypeError ("Cannot read property '" ++ k ++ "' of null"))
  | Js.Obj props => ret (Js.get props k)
  | _ => ret Js.Undefined
  end.

Definition get_db : M database := fun w => (Resolved (db w), w).
Definition put_db (d : database) : M unit :=
  fun w => (Resolved tt, World d (faults w) (entropy w) (out w)).

(** ** The store: query builder and row gateway *)

Module Db.

Import Js.

(** Modelled from the spec: the query builder of the relational store, which
    the sources only consume.  A builder is the table it was opened on and
    the calls chained on it so far: those the spec lists (where, select,
    join, leftJoin, orderBy, limit, offset, modify), the search constraint
    of [getAll], and [orWhere], with which a chain widens what it has
    constrained.  [andWhere] is [where].  [Select] pairs a column with the
    name it is returned under.  The builder has further calls (union,
    from, ...) that the routes modelled here do not make; no statement
    below is about a chain that makes one. *)
Inductive clause : Type :=
| Where (key : string) (v : value)
| OrWhere (key : string) (v : value)
| Search (cols : list string) (v : value)
| Select (cols : list (string * string))
| Join (tbl l r : string)
| LeftJoin (tbl l r : string)
| OrderBy (key : string) (ascending : bool)
| Limit (n : nat)
| Offset (n : nat)
| Modify (ops : list clause).

Record query : Type := Query {
  q_table : string;
  q_clauses : list clause
}.

(** [knex(table)] and the chaining of one more call on a builder. *)
Definition knex (t : string) : query := Query t [].

Definition chain (q : query) (cs : list clause) : query :=
  Query (q_table q) (q_clauses q ++ cs).

(** A modifier is a function on the builder: it is the calls it makes on
    the builder it is given, which the handler fixes by binding the
    request; an absent one leaves the builder alone. *)
Definition modifier := list clause.

Definition modify (q : query) (m : option modifier) : query :=
  match m with
  | Some ops => chain q [Modify ops]
  | None => q
  end.

(** [.modify(f)] runs [f] on the builder: its clauses join the chain. *)
Fixpoint flatten_clause (c : clause) : list clause :=
  match c with
  | Modify ops =>
      (fix go (l : list clause) : list clause :=
         match l with
         | [] => []
         | c' :: l' => flatten_clause c' ++ go l'
         end) ops
  | _ => [c]
  end.

Definition flatten (cs : list clause) : list clause :=
  flat_map flatten_clause cs.

(** The calls that can only narrow what a chain yields or touches, and the
    modifiers that make no other. *)
Definition narrow (c : clause) : bool :=
  match c with
  | OrWhere _ _ => false
  | _ => true
  end.


(** What the store is configured with: how it compares a column with a
    bound value or with another column (by value, after its own
    conversions and under its own collation: a number sent as a string can
    equal a numeric column), the matching that [search] uses, and the
    column, if any, in which a table receives a store-assigned id.  Of the
    comparison only this much is built on: a number equals itself and a
    string equals itself. *)
Class Dialect : Type := {
  equal : value -> value -> bool;
  search_match : value -> value -> bool;
  identity_column : string -> option string;
  equal_num : forall z, equal (Num z) (Num z) = true;
  equal_str : forall s, equal (Str s) (Str s) = true
}.

(** A row of the base table with the rows joined to it; a left join that
    found no partner contributes an absent row. *)
Record jrow : Type := Jrow {
  base : object;
  joined : list (string * option object)
}.

Fixpoint strip_prefix (p s : string) : option string :=
  match p with
  | EmptyString => Some s
  | String a p' =>
      match s with
      | String b s' => if Ascii.eqb a b then strip_prefix p' s' else None
      | EmptyString => None
      end
  end.

Fixpoint table (d : database) (t : string) : list object :=
  match d with
  | [] => []
  | (t', rows) :: d' => if t' =? t then rows else table d' t
  end.

Fixpoint set_table (d : database) (t : string) (rows : list object) : database :=
  match d with
  | [] => [(t, rows)]
  | (t', rows') :: d' =>
      if t' =? t then (t', rows) :: d' else (t', rows') :: set_table d' t rows
  end.

(** A column qualified by a joined table's name. *)
Fixpoint joined_qualified (js : list (string * option object)) (key : string)
  : option value :=
  match js with
  | [] => None
  | (t, r) :: js' =>
      match strip_prefix (t ++ ".") key with
      | Some c => Some (match r with Some o => get o c | None => Null end)
      | None => joined_qualified js' key
      end
  end.

(** A bare column name found in one of the joined rows. *)
Fixpoint joined_bare (js : list (string * option object)) (key : string) : value :=
  match js with
  | [] => Undefined
  | (_, Some o) :: js' =>
      if includes (keys o) key then get o key else joined_bare js' key
  | (_, None) :: js' => joined_bare js' key
  end.

(** The value a column reference denotes in a joined row: [table.column]
    names the base table's column, [other.column] a joined table's, a bare
    name the base row's column when it has one. *)
Definition column (t : string) (jr : jrow) (key : string) : value :=
  match strip_prefix (t ++ ".") key with
  | Some c => get (base jr) c
  | None =>
      match joined_qualified (joined jr) key with
      | Some v => v
      | None =>
          if includes (keys (base jr)) key then get (base jr) key
          else joined_bare (joined jr) key
      end
  end.

Section Semantics.
Context {dialect : Dialect}.

(** Equality of a join condition: an absent value equals nothing. *)
Definition sql_eq (a b : value) : bool :=
  match a with
  | Undefined | Null => false
  | _ => equal a b
  end.

Definition join_step (d : database) (t : string) (left : bool)
    (tbl l r : string) (jr : jrow) : list jrow :=
  let candidates :=
    map (fun o => Jrow (base jr) (joined jr ++ [(tbl, Some o)])) (table d tbl) in
  match filter (fun c => sql_eq (column t c l) (column t c r)) candidates with
  | [] => if left then [Jrow (base jr) (joined jr ++ [(tbl, None)])] else []
  | hits => hits
  end.

(** The joined rows one base row gives rise to. *)
Fixpoint expand (d : database) (t : string) (cs : list clause) (jrs : list jrow)
  : list jrow :=
  match cs with
  | [] => jrs
  | Join tbl l r :: cs' => expand d t cs' (flat_map (join_step d t false tbl l r) jrs)
  | LeftJoin tbl l r :: cs' => expand d t cs' (flat_map (join_step d t true tbl l r) jrs)
  | _ :: cs' => expand d t cs' jrs
  end.

(** What one constraint asks of a row. *)
Definition holds (t : string) (jr : jrow) (c : clause) : bool :=
  match c with
  | Where key v | OrWhere key v => equal (column t jr key) v
  | Search cols v => existsb (fun k => search_match (column t jr k) v) cols
  | _ => true
  end.

(** The constraints of a chain in the order they were chained: [where]
    and the search join the current conjunction, [orWhere] opens the next
    alternative, and conjunction binds tighter; [cur] is the conjunction
    so far, absent while nothing has been constrained. *)
Fixpoint disjuncts (t : string) (jr : jrow) (cs : list clause)
    (cur : option bool) : bool :=
  match cs with
  | [] => match cur with Some b => b | None => true end
  | OrWhere key v :: cs' =>
      match cur with
      | Some b => b || disjuncts t jr cs' (Some (holds t jr (OrWhere key v)))
      | None => disjuncts t jr cs' (Some (holds t jr (OrWhere key v)))
      end
  | (Where _ _ | Search _ _) as c :: cs' =>
      disjuncts t jr cs'
        (Some (match cur with Some b => b && holds t jr c | None => holds t jr c end))
  | _ :: cs' => disjuncts t jr cs' cur
  end.

Definition satisfies (t : string) (cs : list clause) (jr : jrow) : bool :=
  disjuncts t jr cs None.

(** Ordering of stored values: absent first, then booleans, numbers,
    strings. *)
Definition rank (v : value) : Z :=
  match v with
  | Undefined | Null => 0
  | Boolean false => 1
  | Boolean true => 2
  | Num _ => 3
  | Str _ => 4
  | Obj _ | Arr _ => 5
  end.

Definition compare_values (a b : value) : comparison :=
  match a, b with
  | Num x, Num y => (x ?= y)%Z
  | Str x, Str y => String.compare x y
  | _, _ => (rank a ?= rank b)%Z
  end.

(** [orderBy] criteria in chain order, the first the most significant. *)
Fixpoint orders (cs : list clause) : list (string * bool) :=
  match cs with
  | [] => []
  | OrderBy k asc :: cs' => (k, asc) :: orders cs'
  | _ :: cs' => orders cs'
  end.

Fixpoint before (t : string) (os : list (string * bool)) (a b : jrow) : bool :=
  match os with
  | [] => true
  | (k, asc) :: os' =>
      match compare_values (column t a k) (column t b k) with
      | Eq => before t os' a b
      | Lt => asc
      | Gt => negb asc
      end
  end.

Fixpoint insert_sorted (t : string) (os : list (string * bool)) (x : jrow)
    (l : list jrow) : list jrow :=
  match l with
  | [] => [x]
  | y :: l' =>
      if before t os x y then x :: l else y :: insert_sorted t os x l'
  end.

Definition sort (t : string) (os : list (string * bool)) (l : list jrow)
  : list jrow :=
  fold_right (insert_sorted t os) [] l.

(** The last [limit] and [offset] of a chain are the ones that count. *)
Fixpoint limit_of (cs : list clause) : option nat :=
  match cs with
  | [] => None
  | Limit n :: cs' =>
      match limit_of cs' with Some m => Some m | None => Some n end
  | _ :: cs' => limit_of cs'
  end.

Fixpoint offset_of (cs : list clause) : nat :=
  match cs with
  | [] => 0
  | Offset n :: cs' =>
      match offset_of cs' with 0 => n | m => m end
  | _ :: cs' => offset_of cs'
  end.

Definition window (cs : list clause) (l : list jrow) : list jrow :=
  let l' := skipn (offset_of cs) l in
  match limit_of cs with
  | Some n => firstn n l'
  | None => l'
  end.

(** The joined rows a select query yields, in order. *)
Definition run (d : database) (q : query) : list jrow :=
  let t := q_table q in
  let cs := flatten (q_clauses q) in
  let all := expand d t cs (map (fun o => Jrow o []) (table d t)) in
  window cs (sort t (orders cs) (filter (satisfies t cs) all)).

Fixpoint selected (cs : list clause) : list (string * string) :=
  match cs with
  | [] => []
  | Select cols :: cs' => cols ++ selected cs'
  | _ :: cs' => selected cs'
  end.

(** All columns: the base row's, then those of the joined rows. *)
Definition star (jr : jrow) : object :=
  fold_left
    (fun acc j =>
       match snd j with
       | Some o => fold_left (fun acc' kv => set acc' (fst kv) (snd kv)) o acc
       | None => acc
       end)
    (joined jr) (base jr).

(** The object returned for a joined row. *)
Definition project (q : query) (jr : jrow) : object :=
  match selected (flatten (q_clauses q)) with
  | [] => star jr
  | cols => map (fun c => (snd c, column (q_table q) jr (fst c))) cols
  end.

Definition rows (d : database) (q : query) : list object :=
  map (project q) (run d q).

(** The base rows a mutation touches: those that satisfy the chained
    constraints.  Joins, ordering and windows play no part in it. *)
Definition touched (q : query) (o : object) : bool :=
  satisfies (q_table q) (flatten (q_clauses q)) (Jrow o []).

(** [o] with the properties of [data] assigned over it. *)
Definition assign (o data : object) : object :=
  fold_left (fun acc kv => set acc (fst kv) (snd kv)) data o.

Definition count (f : object -> bool) (l : list object) : nat :=
  length (filter f l).

(** The largest number stored in a column. *)
Definition max_id (c : string) (l : list object) : Z :=
  fold_right (fun o m => match get o c with Num z => Z.max z m | _ => m end) 0%Z l.

(** Modelled from the spec: the where clause every gateway operation starts
    from ([services/db.js] is not among the sources).  The organization is
    constrained when a non-falsy organization value is supplied; the key
    column is constrained when one is named.  Keys are qualified by the
    table and the organization comes first, as the test data of the
    gateway has them. *)
Definition buildWhere (t : string) (columnName v organizationID : value)
  : list clause :=
  (if truthy organizationID
   then [Where (t ++ ".organizationID") organizationID] else []) ++
  (if truthy columnName
   then [Where (t ++ "." ++ to_string columnName) v] else []).

Definition sortClauses (sortBy : list (string * bool)) : list clause :=
  map (fun s => OrderBy (fst s) (snd s)) sortBy.

Definition searchClauses (search : option (list string * value)) : list clause :=
  match search with
  | Some (cols, v) => [Search cols v]
  | None => []
  end.

Definition not_found : error := StoreError (Str "ER_NOT_FOUND") Undefined.

(** Modelled from the spec: the query behind [get], [update] and [delete]:
    the base query on the table, the key and organization constraints, then
    the modifier. *)
Definition scoped (t : string) (columnName v organizationID : value)
    (m : option modifier) : query :=
  modify (chain (knex t) (buildWhere t columnName v organizationID)) m.

(** Modelled from the spec: the query behind [getAll]: the base query, the
    organization constraint, then the modifier, then sorting and search. *)
Definition listing (t : string) (organizationID : value)
    (m : option modifier) (sortBy : list (string * bool))
    (search : option (list string * value)) : query :=
  chain (scoped t Undefined Undefined organizationID m)
        (sortClauses sortBy ++ searchClauses search).

(** Modelled from the spec: [db.getAll(table, organizationID, modify, sortBy,
    search)], the rows of the listing query in one round trip to the
    store. *)
Definition getAll (t : string) (organizationID : value)
    (m : option modifier) (sortBy : list (string * bool))
    (search : option (list string * value)) : M (list object) :=
  external ;;
  d <- get_db ;;
  ret (rows d (listing t organizationID m sortBy search)).

(** Modelled from the spec: [db.get(table, columnName, value, organizationID,
    modify)], a single row or a rejection that classifies as NotFound. *)
Definition get (t : string) (columnName v organizationID : value)
    (m : option modifier) : M value :=
  external ;;
  d <- get_db ;;
  match rows d (scoped t columnName v organizationID m) with
  | [] => throw not_found
  | r :: _ => ret (Obj r)
  end.

(** The row as stored and the id the store reports for it. *)
Definition stored (t : string) (existing : list object) (payload : object)
  : object * value :=
  match identity_column t with
  | Some c =>
      if includes (keys payload) c then (payload, Js.get payload c)
      else let id := Num (max_id c existing + 1) in (set payload c id, id)
  | None => (payload, Num 0)
  end.

(** Modelled from the spec: the insertion behind [db.create], in the form
    [controllers/auth.js] calls it, [db.create(table, payload)], resolving
    to the list of inserted ids.  The row is appended to the table. *)
Definition insert (t : string) (payload : object) : M (list value) :=
  external ;;
  d <- get_db ;;
  let (row, id) := stored t (table d t) payload in
  put_db (set_table d t (table d t ++ [row])) ;;
  ret [id].

(** Modelled from the spec: [db.create(table, columnName, payload, {modify,
    resModify})], the insertion followed by the re-fetch of the created
    row through [resModify]. *)
Definition create (t : string) (columnName : value) (payload : object)
    (m resModify : option modifier) : M value :=
  ids <- insert t payload ;;
  get t columnName (hd Undefined ids) (Boolean false) resModify.

(** Modelled from the spec: [db.update(table, columnName, value, payload,
    organizationID, {modify, resModify})].  The rows the constrained query
    touches receive the payload; the row is then fetched again, and no row
    touched is not an error of this layer. *)
Definition update (t : string) (columnName v : value) (payload : object)
    (organizationID : value) (m resModify : option modifier) : M value :=
  let q := scoped t columnName v organizationID m in
  external ;;
  d <- get_db ;;
  put_db (set_table d t
            (map (fun o => if touched q o then assign o payload else o)
                 (table d t))) ;;
  d' <- get_db ;;
  ret (match rows d' (scoped t columnName v organizationID resModify) with
       | [] => Undefined
       | r :: _ => Obj r
       end).

(** Modelled from the spec: [db.delete(table, columnName, value,
    organizationID, modify)], resolving to the count of rows removed. *)
Definition delete (t : string) (columnName v organizationID : value)
    (m : option modifier) : M nat :=
  let q := scoped t columnName v organizationID m in
  external ;;
  d <- get_db ;;
  put_db (set_table d t (filter (fun o => negb (touched q o)) (table d t))) ;;
  ret (count (touched q) (table d t)).

(** [q.first()] on an executed builder: the first row the store yields for
    the query, [undefined] when there is none. *)
Definition first (q : query) : M value :=
  external ;;
  d <- get_db ;;
  ret (match rows d (chain q [Limit 1]) with
       | [] => Undefined
       | r :: _ => Obj r
       end).

(** [q.first().pluck(column)]: the array of that column's values over the
    rows of the query limited to its first row. *)
Definition first_pluck (q : query) (col : string) : M (list value) :=
  external ;;
  d <- get_db ;;
  ret (map (fun jr => column (q_table q) jr col) (run d (chain q [Limit 1]))).

End Semantics.

End Db.

(** ** Requests *)

Record request : Type := Request {
  params : Js.value;
  body : Js.value;
  user : Js.value
}.

(** [req.body[k] = v] *)
Definition set_body (req : request) (k : string) (v : Js.value) : request :=
  match body req with
  | Js.Obj props => Request (params req) (Js.Obj (Js.set props k v)) (user req)
  | _ => req
  end.

Definition as_object (v : Js.value) : Js.object :=
  match v with
  | Js.Obj props => props
  | _ => []
  end.

(** ** services/paginate *)

(** The link relations that [paginate.addLinks] computes for a request on a
    table, from the resource path and the parameter values; how they are
    computed is the business of [services/paginate.js]. *)
Class Paginate : Type := {
  link_relations : request -> string -> database -> Js.value
}.

(** Modelled from the spec: [paginate.addLinks(req, res, tableName)] of
    [services/paginate.js], which is not among the sources: a promise that
    resolves once the links are on the response. *)
Definition addLinks `{Paginate} (req : request) (tableName : string) : M unit :=
  external ;;
  d <- get_db ;;
  emit (Links (link_relations req tableName d)).

(** ** restify's error constructors *)

(** [new errors.BadRequestError(message)] and its siblings hand their
    argument to a printf-style formatter, with nothing to format it with.
    The constructor throws when the argument is not a string; a text
    without a [%] is the error's message as it is; what becomes of a text
    with a [%] (a directive that finds no argument, an escaped percent
    sign) is the formatter's business. *)
Fixpoint plain_text (s : string) : bool :=
  match s with
  | String c s' => negb (Ascii.eqb c "%") && plain_text s'
  | EmptyString => true
  end.

Class Formatter : Type := {
  sprintf : string -> settled string;
  sprintf_plain : forall s, plain_text s = true -> sprintf s = Resolved s
}.

Definition not_a_string : error := LibraryError "AssertionError".

Definition construct {formatter : Formatter} (k : Http.kind)
    (message : Js.value) : settled error :=
  match message with
  | Js.Str s =>
      match sprintf s with
      | Resolved text => Resolved (HttpError k (Js.Str text))
      | Rejected e => Rejected e
      end
  | _ => Rejected not_a_string
  end.

(** ** services/endpoint.js *)

Module Endpoint.

Import Js.

(** The options a handler is built from; [hasOrganizationID] is [true] when
    the caller leaves it out.  A modifier takes the request and says what to
    chain on the builder. *)
Record options : Type := Options {
  modify : option (request -> Db.modifier);
  resModify : option (request -> Db.modifier);
  messages : option object;
  hasOrganizationID : bool;
  sortBy : list (string * bool);
  searchColumns : list string
}.

Definition default_options : options :=
  Options None None None true [] [].

Definition bindModify (m : option (request -> Db.modifier)) (req : request)
  : option Db.modifier :=
  match m with
  | Some f => Some (f req)
  | None => None
  end.

Definition defaultMessages : object :=
  [ ("create", Str "Created");
    ("delete", Str "Deleted");
    ("conflict", Str "Already exists");
    ("missing", Str "Does not exist");
    ("badRequest", Str "Wrong fields");
    ("default", Str "Something went wrong") ].

Definition chooseMessage (type : string) (messages : option object) : value :=
  let messages := match messages with Some m => m | None => [] end in
  or_else (or_else (get messages type) (get defaultMessages type))
     (get defaultMessages "default").

Section Errors.
Context {formatter : Formatter}.

(** The error it returns, or what the constructor throws. *)
Definition chooseError (err : error) (messages : option object)
  : settled error :=
  let code := err_code err in
  if strict_eq code (Str "ER_BAD_FIELD_ERROR") then
    construct Http.BadRequest (chooseMessage "badRequest" messages)
  else if strict_eq code (Str "ER_DUP_ENTRY") then
    construct Http.Conflict (chooseMessage "conflict" messages)
  else if strict_eq code (Str "ER_NOT_FOUND") then
    construct Http.NotFound (chooseMessage "missing" messages)
  else if strict_eq code (Str "ER_SIGNAL_EXCEPTION") then
    construct Http.BadRequest (err_sqlMessage err)
  else
    construct Http.InternalServer (chooseMessage "default" messages).

(** [req.log.error(err)], then [next(chooseError(err, messages))]: the
    error is chosen after the log entry is written, and when choosing it
    throws [next] is not called. *)
Definition handleError (err : error) (messages : option object) : M unit :=
  log_error err ;;
  chosen <- settle (chooseError err messages) ;;
  next_err chosen.

End Errors.

(** [hasOrganizationID && req.user.organizationID] *)
Definition tenant (o : options) (req : request) : M value :=
  if hasOrganizationID o then member (user req) "organizationID"
  else ret (Boolean false).

(** [results.map((result, i) => { result.sortIndex = i; return result })] *)
Fixpoint sortIndexed (i : Z) (results : list object) : list object :=
  match results with
  | [] => []
  | r :: rs => set r "sortIndex" (Num i) :: sortIndexed (i + 1) rs
  end.

(** [req.params && (req.params.limit || req.params.offset)] *)
Definition paginated (req : request) : value :=
  and_then (params req)
    (or_else (prop (params req) "limit") (prop (params req) "offset")).

Section Handlers.
Context {dialect : Db.Dialect} {paginate : Paginate} {formatter : Formatter}.

Definition getAll (tableName : string) (o : options) (req : request) : M unit :=
  s <- member (params req) "search" ;;
  let search := if truthy s then Some (searchColumns o, s) else None in
  organizationID <- tenant o req ;;
  catch
    (results <- Db.getAll tableName organizationID
                  (bindModify (modify o) req) (sortBy o) search ;;
     let results := Arr (map Obj (sortIndexed 0 results)) in
     if truthy (paginated req) then
       addLinks req tableName ;;
       res_send (Obj [("results", results)]) ;;
       next
     else
       res_send (Obj [("results", results)]) ;;
       next)
    (fun err => handleError err (messages o)).

Definition get (tableName columnName : string) (o : options) (req : request)
  : M unit :=
  v <- member (params req) columnName ;;
  organizationID <- tenant o req ;;
  catch
    (row <- Db.get tableName (Str columnName) v organizationID
              (bindModify (modify o) req) ;;
     res_send row ;;
     next)
    (fun err => handleError err (messages o)).

(** The guard at the head of [create]: the request as the rest of the
    handler, and anything that runs after it, sees it. *)
Definition backfill (o : options) (req : request) : M request :=
  if hasOrganizationID o then
    current <- member (body req) "organizationID" ;;
    if negb (truthy current) && truthy (user req) then
      organizationID <- member (user req) "organizationID" ;;
      ret (set_body req "organizationID" organizationID)
    else ret req
  else ret req.

Definition create (tableName : string) (columnName : value) (o : options)
    (req : request) : M unit :=
  req <- backfill o req ;;
  catch
    (row <- Db.create tableName columnName (as_object (body req))
              (bindModify (modify o) req) (bindModify (resModify o) req) ;;
     res_send row ;;
     next)
    (fun err => handleError err (messages o)).

Definition update (tableName columnName : string) (o : options) (req : request)
  : M unit :=
  v <- member (params req) columnName ;;
  organizationID <- tenant o req ;;
  catch
    (updatedRow <- Db.update tableName (Str columnName) v (as_object (body req))
                     organizationID
                     (bindModify (modify o) req) (bindModify (resModify o) req) ;;
     res_send updatedRow ;;
     next)
    (fun err => handleError err (messages o)).

Definition delete (tableName columnName : string) (o : options) (req : request)
  : M unit :=
  v <- member (params req) columnName ;;
  organizationID <- tenant o req ;;
  catch
    (rowsAffected <- Db.delete tableName (Str columnName) v organizationID
                       (bindModify (modify o) req) ;;
     (if (0 <? rowsAffected)%nat then
        res_send (Obj [("message", chooseMessage "delete" (messages o));
                       ("id", v)])
      else
        res_send_code 204 Undefined) ;;
     next)
    (fun err => handleError err (messages o)).

End Handlers.

End Endpoint.

(** ** controllers/auth.js *)

Module Auth.

Import Js.

(** The libraries the controller calls: bcrypt and the token signer, keyed
    by the process-wide secret. *)
Class Crypto : Type := {
  bcrypt_hash : string -> Z -> string;
  bcrypt_compare : string -> string -> bool;
  jwt_sign : value -> string -> string
}.

Definition saltRounds : Z := 10.

Definition incorrect : error :=
  HttpError Http.Unauthorized (Str "Email and password combination is incorrect").

Section Controller.
Context {dialect : Db.Dialect} {crypto : Crypto}.

(** What bcrypt says of data that is not a string. *)
Definition not_text : error := LibraryError "data must be a string".

(** [bcrypt.hash(data, rounds)] and [bcrypt.compare(data, hash)]: promises,
    rejected when an argument is not a string; [hash] looks at its
    argument before it starts to work. *)
Definition hash (data : value) (rounds : Z) : M string :=
  match data with
  | Str d => external ;; ret (bcrypt_hash d rounds)
  | _ => throw not_text
  end.

Definition compare (data hashed : value) : M bool :=
  external ;;
  match data, hashed with
  | Str d, Str h => ret (bcrypt_compare d h)
  | _, _ => throw (LibraryError "data and hash must be strings")
  end.

(** Expires in fifteen minutes. *)
Definition makeToken (userID organizationID roleID : value) : M value :=
  let jwtExpirationTime := "15m" in
  let payload := Obj [("userID", userID); ("organizationID", organizationID);
                      ("roleID", roleID)] in
  external ;;
  ret (Str (jwt_sign payload jwtExpirationTime)).

(** [crypto.randomBytes(40).toString('hex')] *)
Definition randomHex : M string :=
  fun w =>
    match entropy w with
    | h :: rest => (Resolved h, World (db w) (faults w) rest (out w))
    | [] => (Resolved "", w)
    end.

Definition authenticate (req : request) : M unit :=
  email <- member (body req) "email" ;;
  password <- member (body req) "password" ;;
  if truthy (and_then email password) then
    catch
      (u <- Db.get "user" (Str "email") email Undefined None ;;
       stored <- member u "password" ;;
       valid <- compare password stored ;;
       if valid then
         token <- makeToken (prop u "userID") (prop u "organizationID")
                    (prop u "roleID") ;;
         hex <- randomHex ;;
         let refreshToken := add (prop u "userID") (Str hex) in
         Db.insert "refreshToken"
           [("userID", prop u "userID"); ("refreshToken", refreshToken)] ;;
         res_send (Obj [("id", prop u "userID");
                        ("refreshToken", refreshToken);
                        ("token", token);
                        ("message", Str "Authentication successful")])
       else
         next_err incorrect)
      (fun _ => next_err incorrect)
  else
    next_err (HttpError Http.BadRequest (Str "Missing email or password")).

Definition refresh (req : request) : M unit :=
  refreshToken <- member (body req) "refreshToken" ;;
  userID <- member (body req) "userID" ;;
  if truthy (and_then refreshToken userID) then
    found <- Db.first_pluck
               (Db.chain (Db.knex "refreshToken") [Db.Where "userID" userID])
               "refreshToken" ;;
    let storedToken := hd Undefined found in
    if strict_eq refreshToken storedToken then
      u <- Db.first (Db.chain (Db.knex "user") [Db.Where "userID" userID]) ;;
      userID' <- member u "userID" ;;
      token <- makeToken userID' (prop u "organizationID") (prop u "roleID") ;;
      res_send (Obj [("token", token);
                     ("message", Str "Token refreshed successfully")])
    else
      next_err (HttpError Http.Unauthorized (Str "Refresh token is invalid"))
  else
    next_err (HttpError Http.BadRequest
                (Str "Request must contain refresh token and user ID")).

(** [Object.keys(req.body)] *)
Definition object_keys (v : value) : M (list string) :=
  match v with
  | Undefined | Null =>
      throw (TypeError "Cannot convert undefined or null to object")
  | Obj props => ret (keys props)
  | _ => ret []
  end.

Definition required : list string :=
  ["firstName"; "lastName"; "email"; "password"; "organizationID"].

Definition register (req : request) : M unit :=
  bodyKeys <- object_keys (body req) ;;
  if forallb (fun key => includes bodyKeys key) required then
    catch
      (h <- hash (prop (body req) "password") saltRounds ;;
       let req := set_body req "password" (Str h) in
       ids <- Db.insert "user" (as_object (body req)) ;;
       let userID := hd Undefined ids in
       res_send_code 201
         (Obj [("id", userID); ("message", Str "User successfully registered")]))
      (fun err => next_err err)
  else
    next_err (HttpError Http.BadRequest (Str "")).

End Controller.

End Auth.

(** ** controllers/auth.js: the guards *)

Module Guards.

Import Js.

(** Strings are sequences of code units below 256; the white space that
    [parseInt] skips is then TAB, LF, VT, FF, CR, SP and NBSP. *)
Definition is_space (c : ascii) : bool :=
  let n := nat_of_ascii c in
  ((9 <=? n) && (n <=? 13) || (n =? 32) || (n =? 160))%nat.

Fixpoint trim_left (s : string) : string :=
  match s with
  | String c s' => if is_space c then trim_left s' else s
  | EmptyString => EmptyString
  end.

Definition digit (c : ascii) : option Z :=
  let n := Z.of_nat (nat_of_ascii c) in
  if ((48 <=? n) && (n <=? 57))%Z then Some (n - 48)%Z else None.

(** The value of the longest prefix of decimal digits, if there is one. *)
Fixpoint digits (s : string) (acc : option Z) : option Z :=
  match s with
  | String c s' =>
      match digit c with
      | Some d =>
          digits s' (Some (10 * match acc with Some a => a | None => 0 end + d)%Z)
      | None => acc
      end
  | EmptyString => acc
  end.

(** The integer that a string denotes in the eyes of [parseInt]: white
    space is skipped, a sign is read, then the longest run of digits;
    nothing when there is no digit. *)
Definition denoted (s : string) : option Z :=
  match trim_left s with
  | String "-" s' => option_map Z.opp (digits s' None)
  | String "+" s' => digits s' None
  | s' => digits s' None
  end.

(** Numbers are doubles: an integer below [2^53] in size is one, a larger
    one is rounded to the nearest that has a 53-bit significand, a tie
    going to the even significand, and past the largest double there is
    only an infinity, [None] here. *)
Definition to_double (n : Z) : option Z :=
  let a := Z.abs n in
  if (a <? 2 ^ 53)%Z then Some n
  else
    let e := (Z.log2 a - 52)%Z in
    let q := (a / 2 ^ e)%Z in
    let r := (a mod 2 ^ e)%Z in
    let half := (2 ^ (e - 1))%Z in
    let q' := if (half <? r)%Z || ((half =? r)%Z && Z.odd q)
              then (q + 1)%Z else q in
    let m := (q' * 2 ^ e)%Z in
    if (m <? 2 ^ 1024)%Z then Some (Z.sgn n * m)%Z else None.

(** [Number.parseInt(v, 10)]: the double for what the string of [v]
    denotes; [None] is [NaN] or an infinity, which no integer equals. *)
Definition parseInt (v : value) : option Z :=
  match denoted (to_string v) with
  | Some n => to_double n
  | None => None
  end.

(** [a === n] for a number [n] that may be [NaN] or an infinity. *)
Definition equals_number (a : value) (n : option Z) : bool :=
  match n with
  | Some z => strict_eq a (Num z)
  | None => false
  end.

Definition adminRoleID : Z := 1.

Definition checkUserExists (req : request) : M unit :=
  if truthy (user req) then res_send_code 200 Undefined
  else next_err (HttpError Http.NotFound (Str "")).

Definition checkAdmin (req : request) : M unit :=
  roleID <- member (user req) "roleID" ;;
  if strict_eq roleID (Num adminRoleID) then next
  else next_err (HttpError Http.Forbidden (Str "Must be an administrator")).

Definition checkUserMatches (req : request) : M unit :=
  userID <- member (user req) "userID" ;;
  addressed <- member (params req) "userID" ;;
  if equals_number userID (parseInt addressed) then next
  else checkAdmin req.

End Guards.

(** ** controllers/kit.js *)

Module Kit.

Import Js.

(** The modifiers say what they chain on the builder they are given;
    ['model.name as model'] is the column and the name it is returned
    under. *)
Definition withModelDetails (req : request) : Db.modifier :=
  [ Db.Where "kitID" (prop (params req) "kitID");
    Db.Select [("kitID", "kitID"); ("quantity", "quantity")];
    Db.Join "model" "kitModel.modelID" "model.modelID";
    Db.Select [("model.modelID", "modelID"); ("model.name", "model")];
    Db.Join "brand" "model.brandID" "brand.brandID";
    Db.Select [("brand.brandID", "brandID"); ("brand.name", "brand")] ].

Definition withKitID (req : request) : Db.modifier :=
  [ Db.Where "kitID" (prop (params req) "kitID") ].

Definition unscoped (m : option (request -> Db.modifier)) : Endpoint.options :=
  Endpoint.Options m None None false [] [].

Section Controller.
Context {dialect : Db.Dialect} {paginate : Paginate} {formatter : Formatter}.

Definition getAllKitModels : request -> M unit :=
  Endpoint.getAll "kitModel" (unscoped (Some withModelDetails)).

Definition createKitModel (req : request) : M unit :=
  modelID <- member (body req) "modelID" ;;
  if truthy modelID then
    kitID <- member (params req) "kitID" ;;
    let req := set_body req "kitID" kitID in
    Endpoint.create "kitModel" Null (unscoped None) req
  else
    next_err (HttpError Http.BadRequest (Str "missing modelID in body")).

Definition updateKitModel : request -> M unit :=
  Endpoint.update "kitModel" "modelID" (unscoped (Some withKitID)).

Definition deleteKitModel : request -> M unit :=
  Endpoint.delete "kitModel" "modelID" (unscoped (Some withKitID)).

End Controller.

End Kit.

(** ** Observations on errors and runs *)


(** The options of a route with tenant scoping switched off. *)
Definition without_scoping (o : Endpoint.options) : Endpoint.options :=
  Endpoint.Options (Endpoint.modify o) (Endpoint.resModify o)
    (Endpoint.messages o) false (Endpoint.sortBy o) (Endpoint.searchColumns o).

(** [messages[type]] of an optional messages object. *)
Definition custom (messages : option Js.object) (type : string) : Js.value :=
  Js.get (match messages with Some m => m | None => [] end) type.

(** Messages that are texts without a [%]: what the error constructors
    take as it is. *)
Definition plain_message (v : Js.value) : bool :=
  match v with
  | Js.Str s => plain_text s
  | _ => false
  end.

Definition formal (messages : option Js.object) : Prop :=
  forall type, Js.truthy (custom messages type) = true ->
               plain_message (custom messages type) = true.


(** The world after some more events, and with another store. *)
Definition say (w : world) (evs : list event) : world :=
  World (db w) (faults w) (entropy w) (out w ++ evs).

Definition with_db (w : world) (d : database) : world :=
  World d (faults w) (entropy w) (out w).

(** A chain that emits nothing, however it settles. *)
Definition quiet {A} (p : M A) : Prop :=
  forall w, out (snd (p w)) = out w.

(** A chain that, when it resolves, has emitted events that satisfy [P],
    and when it rejects has emitted nothing. *)
Definition answers (P : list event -> Prop) (p : M unit) : Prop :=
  forall w,
    match p w with
    | (Resolved _, w') => exists evs, out w' = out w ++ evs /\ P evs
    | (Rejected _, w') => out w' = out w
    end.

(** The number a run of decimal digits denotes after the digits read so
    far. *)
Fixpoint uint_acc (d : Decimal.uint) (a : Z) : Z :=
  match d with
  | Decimal.Nil => a
  | Decimal.D0 l => uint_acc l (10 * a + 0)
  | Decimal.D1 l => uint_acc l (10 * a + 1)
  | Decimal.D2 l => uint_acc l (10 * a + 2)
  | Decimal.D3 l => uint_acc l (10 * a + 3)
  | Decimal.D4 l => uint_acc l (10 * a + 4)
  | Decimal.D5 l => uint_acc l (10 * a + 5)
  | Decimal.D6 l => uint_acc l (10 * a + 6)
  | Decimal.D7 l => uint_acc l (10 * a + 7)
  | Decimal.D8 l => uint_acc l (10 * a + 8)
  | Decimal.D9 l => uint_acc l (10 * a + 9)
  end%Z.

(** A string that does not go on with a digit. *)
Definition stops (rest : string) : Prop :=
  match rest with
  | String c _ => Guards.digit c = None
  | EmptyString => True
  end.

(** A chain that, however it settles, has emitted events that satisfy
    [P]. *)
Definition emits {A} (P : list event -> Prop) (p : M A) : Prop :=
  forall w, exists evs, out (snd (p w)) = out w ++ evs /\ P evs.

(** Events that hand no error to [next] and log none. *)
Definition peaceful (ev : event) : bool :=
  match ev with
  | Next (Some _) | LogError _ => false
  | _ => true
  end.

(** What an endpoint handler may emit: peaceful events, closed, if an error
    occurred, by the log entry of that error and then, unless choosing the
    error to answer with threw, by that chosen error for [next]. *)
Definition classified {formatter : Formatter} (messages : option Js.object)
    (evs : list event) : Prop :=
  forallb peaceful evs = true \/
  exists pre e0,
    forallb peaceful pre = true /\
    match Endpoint.chooseError e0 messages with
    | Resolved chosen => evs = pre ++ [LogError e0; Next (Some chosen)]
    | Rejected _ => evs = pre ++ [LogError e0]
    end.

(** A chain that leaves the store as it found it. *)
Definition readonly {A} (p : M A) : Prop :=
  forall w, db (snd (p w)) = db w.

(** Nothing is emitted and nothing stored between two worlds. *)
Definition same (w w' : world) : Prop := out w' = out w /\ db w' = db w.

(** What [authenticate] can answer once both fields are there. *)
Definition credential_answer (evs : list event) : Prop :=
  evs = [Next (Some Auth.incorrect)] \/
  exists id refreshToken token,
    evs = [Send 200 (Js.Obj [("id", id); ("refreshToken", refreshToken);
                             ("token", token);
                             ("message", Js.Str "Authentication successful")])].

(** The clauses that constrain or order and set no window. *)
Definition plain (c : Db.clause) : bool :=
  match c with
  | Db.Where _ _ | Db.Search _ _ | Db.OrderBy _ _ => true
  | _ => false
  end.

(** The refresh tokens stored for a user, in the order the store yields
    them: the table's order, to which an insertion appends. *)
Definition stored_tokens {dialect : Db.Dialect} (d : database)
    (userID : Js.value) : list Js.value :=
  map (fun o => Js.get o "refreshToken")
      (filter (fun o => Db.equal (Js.get o "userID") userID)
              (Db.table d "refreshToken")).

Definition invalid_token : error :=
  HttpError Http.Unauthorized (Js.Str "Refresh token is invalid").

(** The user row with a given email, as [authenticate] asks for it, and the
    refresh tokens of a user, as [refresh] asks for them. *)
Definition user_by_email (email : Js.value) : Db.query :=
  Db.scoped "user" (Js.Str "email") email Js.Undefined None.

Definition tokens_of (userID : Js.value) : Db.query :=
  Db.chain (Db.knex "refreshToken") [Db.Where "userID" userID].

Definition user_by_id (userID : Js.value) : Db.query :=
  Db.chain (Db.knex "user") [Db.Where "userID" userID].

(** bcrypt and a signer to run examples with: the hash of a password is the
    password behind a salt tag. *)
Definition toy_crypto : Auth.Crypto :=
  {| Auth.bcrypt_hash := fun data _ => ("$2b$10$" ++ data)%string;
     Auth.bcrypt_compare := fun data hashed => (("$2b$10$" ++ data) =? hashed)%string;
     Auth.jwt_sign := fun payload _ =>
       ("jwt:" ++ Js.to_string (Js.prop payload "userID"))%string |}.

(** A store configuration and a link builder to run examples with: the
    store compares by value, a number with a string through the number's
    decimal form. *)
Definition by_value (a b : Js.value) : bool :=
  match a, b with
  | Js.Num x, Js.Num y => (x =? y)%Z
  | Js.Str x, Js.Str y => (x =? y)%string
  | Js.Num x, Js.Str y | Js.Str y, Js.Num x => (Js.num_to_string x =? y)%string
  | Js.Boolean x, Js.Boolean y => Bool.eqb x y
  | _, _ => false
  end.

Definition plain_dialect : Db.Dialect :=
  {| Db.equal := by_value;
     Db.search_match := by_value;
     Db.identity_column := fun t => if t =? "user" then Some "userID" else None;
     Db.equal_num := Z.eqb_refl;
     Db.equal_str := String.eqb_refl |}.

Definition plain_formatter : Formatter :=
  {| sprintf := fun s =>
       if plain_text s then Resolved s else Rejected (LibraryError "sprintf");
     sprintf_plain := fun (s : string) (H : plain_text s = true) =>
       @eq_ind_r bool true
         (fun b : bool =>
            (if b then Resolved s else Rejected (LibraryError "sprintf")) =
            @Resolved string s)
         eq_refl (plain_text s) H |}.

Definition offset_links : Paginate :=
  {| link_relations := fun req _ _ =>
       Js.Obj [("offset", Js.prop (params req) "offset");
               ("limit", Js.prop (params req) "limit")] |}.

Definition sample_db : database :=
  [ ("kit",
     [ [("kitID", Js.Num 1); ("name", Js.Str "Camera kit");
        ("organizationID", Js.Num 94)];
       [("kitID", Js.Num 2); ("name", Js.Str "Audio kit");
        ("organizationID", Js.Num 7)] ]);
    ("user",
     [ [("userID", Js.Num 1); ("email", Js.Str "a@b.com");
        ("password", Js.Str "$2b$10$secret"); ("organizationID", Js.Num 94);
        ("roleID", Js.Num 2)] ]);
    ("refreshToken", []) ].

Definition sample_world : world := World sample_db [] ["c0ffee"; "f00d"] [].

Definition member94 : Js.value :=
  Js.Obj [("userID", Js.Num 1); ("organizationID", Js.Num 94);
          ("roleID", Js.Num 2)].




(** The rows of the gateway's own test data. *)
Definition testRow : Js.object :=
  [("name", Js.Str "test1"); ("value", Js.Num 5); ("organizationID", Js.Num 94)].

Definition modifiedTestRow : Js.object :=
  [("name", Js.Str "test2"); ("value", Js.Num 10); ("organizationID", Js.Num 94)].

Definition test_db : database :=
  [("test", [modifiedTestRow; testRow;
             [("name", Js.Str "test9"); ("value", Js.Num 1);
              ("organizationID", Js.Num 7)]])].

(** Requests to run examples with. *)
Definition login (email password : string) : request :=
  Request (Js.Obj []) (Js.Obj [("email", Js.Str email);
                               ("password", Js.Str password)]) Js.Undefined.

Definition refreshing (userID : Z) (token : string) : request :=
  Request (Js.Obj []) (Js.Obj [("refreshToken", Js.Str token);
                               ("userID", Js.Num userID)]) Js.Undefined.

Definition registration : Js.object :=
  [ ("firstName", Js.Str "Ada"); ("lastName", Js.Str "Byron");
    ("email", Js.Str "ada@b.com"); ("password", Js.Str "engine");
    ("organizationID", Js.Num 94) ].

(** The same registration with a number as password. *)
Definition numeric_registration : Js.object :=
  [ ("firstName", Js.Str "Ada"); ("lastName", Js.Str "Byron");
    ("email", Js.Str "ada@b.com"); ("password", Js.Num 123);
    ("organizationID", Js.Num 94) ].

(** Hashing goes through and the store then refuses the row. *)
Definition store_refuses : world :=
  World sample_db
        [None; Some (StoreError (Js.Str "ER_DUP_ENTRY") (Js.Str "Duplicate entry"))]
        ["c0ffee"] [].

(** The store goes down at the first round trip. *)
Definition store_down : world :=
  World sample_db [Some (StoreError (Js.Str "ECONNREFUSED") Js.Undefined)]
        ["c0ffee"] [].

(** The world after the sample user has logged in twice. *)
Definition after_two_logins : world :=
  snd (Auth.authenticate (dialect := plain_dialect) (crypto := toy_crypto)
         (login "a@b.com" "secret")
         (snd (Auth.authenticate (dialect := plain_dialect) (crypto := toy_crypto)
                 (login "a@b.com" "secret") sample_world))).

(** * Properties *)

Module JsFacts.

Import Js.

Lemma truthy_or (a b : value) :
  truthy (or_else a b) = truthy a || truthy b.
Proof. unfold or_else. destruct (truthy a) eqn:E; simpl; auto. Qed.

Lemma truthy_and (a b : value) :
  truthy (and_then a b) = truthy a && truthy b.
Proof. unfold and_then. destruct (truthy a) eqn:E; simpl; auto. Qed.

Lemma get_set_same (o : object) (k : string) (v : value) :
  get (set o k v) k = v.
Proof.
  induction o as [|[k' v'] o IH]; simpl.
  - now rewrite String.eqb_refl.
  - destruct (k' =? k) eqn:E; simpl; rewrite E; auto.
Qed.

Lemma get_set_other (o : object) (k k' : string) (v : value) :
  k <> k' -> get (set o k v) k' = get o k'.
Proof.
  intros Hne. induction o as [|[k0 v0] o IH]; simpl.
  - destruct (k =? k') eqn:E; auto. apply String.eqb_eq in E. contradiction.
  - destruct (k0 =? k) eqn:E; simpl.
    + apply String.eqb_eq in E; subst k0.
      destruct (k =? k') eqn:E'; auto.
      apply String.eqb_eq in E'. contradiction.
    + destruct (k0 =? k'); auto.
Qed.

Lemma includes_In (ks : list string) (k : string) :
  includes ks k = true <-> In k ks.
Proof.
  induction ks as [|k' ks IH]; simpl.
  - split; [discriminate | tauto].
  - rewrite orb_true_iff, IH, String.eqb_eq. tauto.
Qed.

Lemma keys_set (o : object) (k k' : string) (v : value) :
  includes (keys o) k = true -> includes (keys (set o k' v)) k = true.
Proof.
  induction o as [|[k0 v0] o IH]; simpl; [discriminate|].
  destruct (k0 =? k') eqn:E; simpl; [auto|].
  destruct (k0 =? k); simpl; auto.
Qed.

Lemma keys_set_same (o : object) (k : string) (v : value) :
  includes (keys (set o k v)) k = true.
Proof.
  induction o as [|[k0 v0] o IH]; simpl.
  - now rewrite String.eqb_refl.
  - destruct (k0 =? k) eqn:E; simpl; rewrite E; auto.
Qed.

Lemma strict_eq_eq (a b : value) : strict_eq a b = true -> a = b.
Proof.
  destruct a, b; simpl; try discriminate; auto.
  - intros H. apply Bool.eqb_prop in H. now subst.
  - intros H. apply Z.eqb_eq in H. now subst.
  - intros H. apply String.eqb_eq in H. now subst.
Qed.



Lemma member_Obj (props : object) (k : string) :
  member (Obj props) k = ret (get props k).
Proof. reflexivity. Qed.

Lemma member_truthy (v : value) (k : string) :
  truthy v = true -> member v k = ret (prop v k).
Proof. destruct v; simpl; intros H; try discriminate; reflexivity. Qed.

End JsFacts.

Module PromiseFacts.

Lemma bind_resolved {A B} (p : M A) (k : A -> M B) (w w' : world) (a : A) :
  p w = (Resolved a, w') -> bind p k w = k a w'.
Proof. intros H. unfold bind. now rewrite H. Qed.

Lemma bind_rejected {A B} (p : M A) (k : A -> M B) (w w' : world) (e : error) :
  p w = (Rejected e, w') -> bind p k w = (Rejected e, w').
Proof. intros H. unfold bind. now rewrite H. Qed.

Lemma catch_resolved {A} (p : M A) (h : error -> M A) (w w' : world) (a : A) :
  p w = (Resolved a, w') -> catch p h w = (Resolved a, w').
Proof. intros H. unfold catch. now rewrite H. Qed.

Lemma catch_rejected {A} (p : M A) (h : error -> M A) (w w' : world) (e : error) :
  p w = (Rejected e, w') -> catch p h w = h e w'.
Proof. intros H. unfold catch. now rewrite H. Qed.

Lemma external_calm (w : world) :
  faults w = [] -> external w = (Resolved tt, w).
Proof. intros H. unfold external. now rewrite H. Qed.

Lemma quiet_ret {A} (a : A) : quiet (ret a).
Proof. intros w. reflexivity. Qed.

Lemma quiet_throw {A} (e : error) : quiet (@throw A e).
Proof. intros w. reflexivity. Qed.

Lemma quiet_bind {A B} (p : M A) (k : A -> M B) :
  quiet p -> (forall a, quiet (k a)) -> quiet (bind p k).
Proof.
  intros Hp Hk w. unfold bind. specialize (Hp w).
  destruct (p w) as [[a|e] w']; simpl in *.
  - now rewrite Hk.
  - exact Hp.
Qed.

Lemma quiet_external : quiet external.
Proof.
  intros w. unfold external. destruct (faults w) as [|[e|] fs]; reflexivity.
Qed.

Lemma quiet_get_db : quiet get_db.
Proof. intros w. reflexivity. Qed.

Lemma quiet_put_db (d : database) : quiet (put_db d).
Proof. intros w. reflexivity. Qed.

Lemma quiet_member (v : Js.value) (k : string) : quiet (member v k).
Proof. intros w. destruct v; reflexivity. Qed.

Create HintDb quiet.
#[export] Hint Resolve quiet_ret quiet_throw quiet_external quiet_get_db
  quiet_put_db quiet_member : quiet.

Ltac quiet :=
  repeat first
    [ apply quiet_bind; [|intros ?]
    | solve [auto with quiet]
    | match goal with
      | |- quiet (match ?x with _ => _ end) => destruct x
      | |- quiet (if ?x then _ else _) => destruct x
      | |- quiet (let (_, _) := ?x in _) => destruct x
      end ].

Lemma readonly_ret {A} (a : A) : readonly (ret a).
Proof. intros w. reflexivity. Qed.

Lemma readonly_throw {A} (e : error) : readonly (@throw A e).
Proof. intros w. reflexivity. Qed.

Lemma readonly_bind {A B} (p : M A) (k : A -> M B) :
  readonly p -> (forall a, readonly (k a)) -> readonly (bind p k).
Proof.
  intros Hp Hk w. unfold bind. specialize (Hp w).
  destruct (p w) as [[a|e] w']; simpl in *.
  - now rewrite Hk.
  - exact Hp.
Qed.

Lemma readonly_external : readonly external.
Proof.
  intros w. unfold external. destruct (faults w) as [|[e|] fs]; reflexivity.
Qed.

Lemma readonly_get_db : readonly get_db.
Proof. intros w. reflexivity. Qed.

Lemma readonly_member (v : Js.value) (k : string) : readonly (member v k).
Proof. intros w. destruct v; reflexivity. Qed.

Lemma readonly_emit (ev : event) : readonly (emit ev).
Proof. intros w. reflexivity. Qed.

Create HintDb readonly.
#[export] Hint Resolve readonly_ret readonly_throw readonly_external
  readonly_get_db readonly_member readonly_emit : readonly.

Ltac readonly :=
  repeat first
    [ apply readonly_bind; [|intros ?]
    | solve [auto with readonly]
    | match goal with
      | |- readonly (match ?x with _ => _ end) => destruct x
      | |- readonly (if ?x then _ else _) => destruct x
      end ].

Lemma answers_emit (P : list event -> Prop) (ev : event) :
  P [ev] -> answers P (emit ev).
Proof. intros H w. simpl. eauto. Qed.

Lemma answers_bind {A} (P : list event -> Prop) (p : M A) (k : A -> M unit) :
  quiet p -> (forall a, answers P (k a)) -> answers P (bind p k).
Proof.
  intros Hp Hk w. unfold bind. specialize (Hp w).
  destruct (p w) as [[a|e] w']; simpl in *.
  - specialize (Hk a w'). destruct (k a w') as [[[]|e] w'']; now rewrite <- Hp.
  - exact Hp.
Qed.

(** A chain whose every failure is answered by one and the same event. *)
Lemma answers_catch (P : list event -> Prop) (p : M unit) (ev : event) :
  answers P p -> P [ev] ->
  forall w, exists w' evs,
    catch p (fun _ => emit ev) w = (Resolved tt, w') /\
    out w' = out w ++ evs /\ P evs.
Proof.
  intros Hp Hev w. unfold catch. specialize (Hp w).
  destruct (p w) as [[[]|e] w'].
  - destruct Hp as (evs & Ho & HP). eauto.
  - exists (say w' [ev]), [ev]. simpl. rewrite Hp. auto.
Qed.

End PromiseFacts.

Module DbFacts.

Import Js JsFacts PromiseFacts.

Lemma table_set_table (d : database) (t : string) (rows : list object) :
  Db.table (Db.set_table d t rows) t = rows.
Proof.
  induction d as [|[t' r] d IH]; simpl.
  - now rewrite String.eqb_refl.
  - destruct (t' =? t) eqn:E; simpl; rewrite E; auto.
Qed.

Lemma table_set_table_other (d : database) (t t' : string) (rows : list object) :
  t <> t' -> Db.table (Db.set_table d t rows) t' = Db.table d t'.
Proof.
  intros Hne. induction d as [|[t0 r] d IH]; simpl.
  - destruct (t =? t') eqn:E; auto. apply String.eqb_eq in E. contradiction.
  - destruct (t0 =? t) eqn:E; simpl.
    + apply String.eqb_eq in E; subst t0.
      destruct (t =? t') eqn:E'; auto. apply String.eqb_eq in E'. contradiction.
    + destruct (t0 =? t'); auto.
Qed.

Lemma get_absent (o : object) (k : string) :
  includes (keys o) k = false -> get o k = Undefined.
Proof.
  induction o as [|[k' v] o IH]; simpl; auto.
  destruct (k' =? k); simpl; auto. discriminate.
Qed.

(** The where clauses and the sorted listings that the gateway's test data
    expects. *)
Example expectedWhereClause :
  Db.buildWhere "test" (Str "testColumn") (Str "testValue") (Num 94) =
    [Db.Where "test.organizationID" (Num 94);
     Db.Where "test.testColumn" (Str "testValue")].
Proof. reflexivity. Qed.

Example expectedWhereClauseOrg :
  Db.buildWhere "test" Undefined Undefined (Num 94) =
    [Db.Where "test.organizationID" (Num 94)].
Proof. reflexivity. Qed.

Example expectedWhereClauseNoOrg :
  Db.buildWhere "test" (Str "testColumn") (Str "testValue") (Boolean false) =
    [Db.Where "test.testColumn" (Str "testValue")].
Proof. reflexivity. Qed.

Example expectedAscending :
  Db.rows (dialect := plain_dialect) test_db
    (Db.listing "test" (Num 94) None [("value", true)] None) =
    [testRow; modifiedTestRow].
Proof. reflexivity. Qed.

Example expectedDescending :
  Db.rows (dialect := plain_dialect) test_db
    (Db.listing "test" (Num 94) None [("name", false)] None) =
    [modifiedTestRow; testRow].
Proof. reflexivity. Qed.

Example joined_listing :
  Db.rows (dialect := plain_dialect)
    [("kitModel", [[("kitID", Num 1); ("modelID", Num 3); ("quantity", Num 2)];
                   [("kitID", Num 2); ("modelID", Num 4); ("quantity", Num 1)]]);
     ("model", [[("modelID", Num 3); ("name", Str "XLR cable")];
                [("modelID", Num 4); ("name", Str "Tripod")]])]
    (Db.modify (Db.knex "kitModel")
       (Some [Db.Where "kitID" (Num 1);
              Db.Select [("kitID", "kitID"); ("quantity", "quantity")];
              Db.Join "model" "kitModel.modelID" "model.modelID";
              Db.Select [("model.modelID", "modelID"); ("model.name", "model")]])) =
    [[("kitID", Num 1); ("quantity", Num 2); ("modelID", Num 3);
      ("model", Str "XLR cable")]].
Proof. reflexivity. Qed.

Section Calm.
Context {dialect : Db.Dialect}.

Lemma getAll_calm t org m sortBy search (w : world) :
  faults w = [] ->
  Db.getAll t org m sortBy search w =
    (Resolved (Db.rows (db w) (Db.listing t org m sortBy search)), w).
Proof.
  intros H. unfold Db.getAll.
  rewrite (bind_resolved _ _ w w tt) by now apply external_calm.
  reflexivity.
Qed.

Lemma delete_calm t c v org m (w : world) :
  faults w = [] ->
  let q := Db.scoped t c v org m in
  Db.delete t c v org m w =
    (Resolved (Db.count (Db.touched q) (Db.table (db w) t)),
     with_db w (Db.set_table (db w) t
                  (filter (fun o => negb (Db.touched q o)) (Db.table (db w) t)))).
Proof.
  intros H q. unfold Db.delete.
  rewrite (bind_resolved _ _ w w tt) by now apply external_calm.
  reflexivity.
Qed.

Lemma insert_calm (t : string) (payload : object) (w : world) :
  faults w = [] ->
  let existing := Db.table (db w) t in
  Db.insert t payload w =
    (Resolved [snd (Db.stored t existing payload)],
     with_db w (Db.set_table (db w) t
                  (existing ++ [fst (Db.stored t existing payload)]))).
Proof.
  intros Hf existing. unfold Db.insert.
  rewrite (bind_resolved _ _ w w tt) by now apply external_calm.
  unfold bind, get_db. fold existing.
  now destruct (Db.stored t existing payload).
Qed.

Lemma get_calm t (columnName v org : value) (m : option Db.modifier)
    (w : world) :
  faults w = [] ->
  Db.get t columnName v org m w =
    match Db.rows (db w) (Db.scoped t columnName v org m) with
    | [] => (Rejected Db.not_found, w)
    | r :: _ => (Resolved (Obj r), w)
    end.
Proof.
  intros Hf. unfold Db.get.
  rewrite (bind_resolved _ _ w w tt) by now apply external_calm.
  unfold bind, get_db. now destruct (Db.rows _ _).
Qed.

(** A key the payload has is stored as the payload has it: the store
    assigns at most the identity column, and only when it is not sent. *)
Lemma stored_get (t : string) (existing : list object) (payload : object)
    (k : string) :
  includes (keys payload) k = true ->
  get (fst (Db.stored t existing payload)) k = get payload k.
Proof.
  intros H. unfold Db.stored.
  destruct (Db.identity_column t) as [c|]; [|reflexivity].
  destruct (includes (keys payload) c) eqn:E; [reflexivity|].
  simpl. apply get_set_other. intros ->. congruence.
Qed.

Lemma filter_untouched (f : object -> bool) (l : list object) :
  filter f (filter (fun o => negb (f o)) l) = [].
Proof.
  induction l as [|o l IH]; simpl; auto.
  destruct (f o) eqn:E; simpl; auto. now rewrite E.
Qed.

Lemma filter_none (f : object -> bool) (l : list object) :
  filter f l = [] -> filter (fun o => negb (f o)) l = l.
Proof.
  induction l as [|o l IH]; simpl; auto.
  destruct (f o); simpl; [discriminate|]. intros H. now rewrite IH.
Qed.

Lemma strip_prefix_qualified (t c : string) :
  Db.strip_prefix (t ++ ".") (t ++ "." ++ c) = Some c.
Proof.
  induction t as [|a t IH]; simpl.
  - reflexivity.
  - now rewrite Ascii.eqb_refl.
Qed.

Lemma column_qualified (t c : string) (o : object) :
  Db.column t (Db.Jrow o []) (t ++ "." ++ c) = get o c.
Proof. unfold Db.column. now rewrite strip_prefix_qualified. Qed.

Lemma column_bare (t k : string) (o : object) :
  Db.strip_prefix (t ++ ".") k = None ->
  Db.column t (Db.Jrow o []) k = get o k.
Proof.
  intros H. unfold Db.column. rewrite H. simpl.
  destruct (includes (keys o) k) eqn:E; auto.
  symmetry. now apply get_absent.
Qed.

Lemma sort_unordered (t : string) (l : list Db.jrow) : Db.sort t [] l = l.
Proof.
  unfold Db.sort. induction l as [|x l IH]; simpl; auto.
  rewrite IH. destruct l; reflexivity.
Qed.

Lemma filter_map {A B} (f : A -> B) (g : B -> bool) (l : list A) :
  filter g (map f l) = map f (filter (fun a => g (f a)) l).
Proof.
  induction l as [|a l IH]; simpl; auto.
  destruct (g (f a)); simpl; now rewrite IH.
Qed.

(** A query with one equality constraint and at most a [first]: its rows
    are the rows of the table that meet the constraint, in table order. *)
Lemma rows_where (d : database) (t key : string) (v : value) (one : bool) :
  let cs := Db.Where key v :: (if one then [Db.Limit 1] else []) in
  let hits := filter (fun o => Db.equal (Db.column t (Db.Jrow o []) key) v)
                     (Db.table d t) in
  Db.run d (Db.Query t cs) =
    map (fun o => Db.Jrow o []) (if one then firstn 1 hits else hits) /\
  Db.rows d (Db.Query t cs) = (if one then firstn 1 hits else hits).
Proof.
  intros cs hits.
  assert (Hrun : Db.run d (Db.Query t cs) =
                 map (fun o => Db.Jrow o []) (if one then firstn 1 hits else hits)).
  { unfold Db.run, cs. destruct one; simpl.
    - rewrite sort_unordered, filter_map. unfold Db.window. simpl.
      subst hits. unfold Db.satisfies. simpl.
      now destruct (filter _ _).
    - rewrite sort_unordered, filter_map. unfold Db.window. simpl.
      subst hits. unfold Db.satisfies. simpl.
      reflexivity. }
  split; [exact Hrun|].
  unfold Db.rows. rewrite Hrun, map_map.
  unfold Db.project. subst cs. destruct one; simpl;
    (erewrite map_ext; [apply map_id|reflexivity]).
Qed.

(** *** What a query can yield *)


Lemma join_step_base d t left tbl l r (jr jr' : Db.jrow) :
  In jr' (Db.join_step d t left tbl l r jr) -> Db.base jr' = Db.base jr.
Proof.
  unfold Db.join_step. intros H.
  destruct (filter _ _) as [|h hs] eqn:E.
  - destruct left; simpl in H; [|contradiction].
    destruct H as [<-|[]]. reflexivity.
  - rewrite <- E in H. apply filter_In in H. destruct H as [H _].
    apply in_map_iff in H. destruct H as (o & <- & _). reflexivity.
Qed.

Lemma expand_base d t (cs : list Db.clause) :
  forall (jrs : list Db.jrow) (jr : Db.jrow),
    In jr (Db.expand d t cs jrs) ->
    exists jr0, In jr0 jrs /\ Db.base jr = Db.base jr0.
Proof.
  induction cs as [|c cs IH]; intros jrs jr H; simpl in H.
  - eauto.
  - destruct c; try (apply IH; exact H).
    + destruct (IH _ _ H) as (jr1 & H1 & B1).
      apply in_flat_map in H1. destruct H1 as (jr0 & H0 & Hs).
      apply join_step_base in Hs. exists jr0. split; [exact H0|congruence].
    + destruct (IH _ _ H) as (jr1 & H1 & B1).
      apply in_flat_map in H1. destruct H1 as (jr0 & H0 & Hs).
      apply join_step_base in Hs. exists jr0. split; [exact H0|congruence].
Qed.

Lemma insert_sorted_In t os (x y : Db.jrow) (l : list Db.jrow) :
  In y (Db.insert_sorted t os x l) -> y = x \/ In y l.
Proof.
  induction l as [|z l IH]; simpl.
  - intros [<-|[]]. now left.
  - destruct (Db.before t os x z); simpl.
    + intros [<-|H]; auto.
    + intros [<-|H]; auto. destruct (IH H); auto.
Qed.

Lemma sort_In t os (y : Db.jrow) (l : list Db.jrow) :
  In y (Db.sort t os l) -> In y l.
Proof.
  unfold Db.sort. induction l as [|x l IH]; simpl; auto.
  intros H. apply insert_sorted_In in H. destruct H as [<-|H]; auto.
Qed.

Lemma firstn_In {A} (n : nat) (l : list A) (x : A) :
  In x (firstn n l) -> In x l.
Proof.
  revert l. induction n as [|n IH]; intros [|a l]; simpl; try tauto.
  intros [<-|H]; auto.
Qed.

Lemma skipn_In {A} (n : nat) (l : list A) (x : A) :
  In x (skipn n l) -> In x l.
Proof.
  revert l. induction n as [|n IH]; intros [|a l]; simpl; auto.
Qed.

Lemma window_In (cs : list Db.clause) (l : list Db.jrow) (x : Db.jrow) :
  In x (Db.window cs l) -> In x l.
Proof.
  unfold Db.window. destruct (Db.limit_of cs); intros H.
  - apply firstn_In in H. now apply skipn_In in H.
  - now apply skipn_In in H.
Qed.

(** Every joined row a query yields stems from a stored row of its table
    and satisfies every constraint chained on it. *)
Lemma run_sound (d : database) (q : Db.query) (jr : Db.jrow) :
  In jr (Db.run d q) ->
  In (Db.base jr) (Db.table d (Db.q_table q)) /\
  Db.satisfies (Db.q_table q) (Db.flatten (Db.q_clauses q)) jr = true.
Proof.
  unfold Db.run. intros H.
  apply window_In, sort_In, filter_In in H. destruct H as [H Hs].
  split; [|exact Hs].
  apply expand_base in H. destruct H as (jr0 & H0 & ->).
  apply in_map_iff in H0. destruct H0 as (o & <- & Ho). exact Ho.
Qed.


(** Without an [orWhere] the constraints of a chain are conjoined. *)
Lemma disjuncts_narrow t (jr : Db.jrow) (cs : list Db.clause) :
  forallb Db.narrow cs = true ->
  forall cur,
    Db.disjuncts t jr cs cur =
      match cur with Some b => b | None => true end &&
      forallb (Db.holds t jr) cs.
Proof.
  induction cs as [|c cs IH]; intros Hn cur; simpl.
  - now rewrite andb_true_r.
  - simpl in Hn. apply andb_true_iff in Hn. destruct Hn as [Hc Hn].
    destruct c; try discriminate Hc;
      rewrite (IH Hn); destruct cur as [b|]; simpl;
      now rewrite ?andb_assoc.
Qed.

Lemma satisfies_narrow t (cs : list Db.clause) (jr : Db.jrow) :
  forallb Db.narrow cs = true ->
  Db.satisfies t cs jr = forallb (Db.holds t jr) cs.
Proof. intros Hn. unfold Db.satisfies. now rewrite disjuncts_narrow. Qed.

Lemma satisfies_In t (cs : list Db.clause) (jr : Db.jrow) (c : Db.clause) :
  forallb Db.narrow cs = true ->
  Db.satisfies t cs jr = true -> In c cs -> Db.holds t jr c = true.
Proof.
  intros Hn. rewrite satisfies_narrow by exact Hn.
  rewrite forallb_forall. auto.
Qed.










End Calm.

End DbFacts.

Module EndpointFacts.

Import Js JsFacts PromiseFacts.

Lemma chooseMessage_custom (type : string) (messages : option object) (d : value) :
  get Endpoint.defaultMessages type = d -> truthy d = true ->
  Endpoint.chooseMessage type messages = or_else (custom messages type) d.
Proof.
  intros Hd Ht. unfold Endpoint.chooseMessage, custom. rewrite Hd.
  set (c := get _ type).
  unfold or_else. destruct (truthy c) eqn:E.
  - now rewrite E.
  - now rewrite Ht.
Qed.

Section ErrorFacts.
Context {formatter : Formatter}.

Lemma construct_plain (k : Http.kind) (s : string) :
  plain_text s = true -> construct k (Str s) = Resolved (HttpError k (Str s)).
Proof. intros H. unfold construct. now rewrite (sprintf_plain s H). Qed.




Lemma default_messages_plain (type : string) :
  truthy (get Endpoint.defaultMessages type) = true ->
  plain_message (get Endpoint.defaultMessages type) = true.
Proof.
  unfold Endpoint.defaultMessages. cbn [get].
  repeat match goal with
         | |- context [if ?c then _ else _] => destruct c; [reflexivity|]
         end.
  discriminate.
Qed.

Lemma chooseMessage_plain (type : string) (messages : option object) :
  formal messages ->
  plain_message (Endpoint.chooseMessage type messages) = true.
Proof.
  intros Hf. unfold Endpoint.chooseMessage.
  fold (custom messages type). unfold or_else.
  destruct (truthy (custom messages type)) eqn:E.
  - rewrite E. now apply Hf.
  - destruct (truthy (get Endpoint.defaultMessages type)) eqn:E'.
    + now apply default_messages_plain.
    + reflexivity.
Qed.

Lemma construct_message (k : Http.kind) (v : value) :
  plain_message v = true -> construct k v = Resolved (HttpError k v).
Proof.
  destruct v; try discriminate. intros H. now apply construct_plain.
Qed.

(** With messages that are plain texts, an error that is no signal is
    answered. *)
Lemma chooseError_formal (err : error) (messages : option object) :
  formal messages ->
  strict_eq (err_code err) (Str "ER_SIGNAL_EXCEPTION") = false ->
  exists chosen, Endpoint.chooseError err messages = Resolved chosen.
Proof.
  intros Hf Hs. unfold Endpoint.chooseError. rewrite Hs.
  repeat match goal with
         | |- context [if ?c then _ else _] => destruct c
         end;
    eexists; apply construct_message, chooseMessage_plain, Hf.
Qed.

Lemma handleError_run (err : error) (messages : option object) (w : world) :
  Endpoint.handleError err messages w =
    match Endpoint.chooseError err messages with
    | Resolved chosen => (Resolved tt, say w [LogError err; Next (Some chosen)])
    | Rejected thrown => (Rejected thrown, say w [LogError err])
    end.
Proof.
  unfold Endpoint.handleError, bind, log_error, settle, next_err, emit, say.
  simpl. destruct (Endpoint.chooseError err messages); [|reflexivity].
  simpl. now rewrite <- app_assoc.
Qed.


(** C4. A store validation signal that comes without a detail text is not
    mapped to BadRequest: the error constructor is handed [undefined],
    throws, and [chooseError] throws with it; [handleError] has then
    written its log entry and never calls [next]. *)
Theorem chooseError_signal_throws (messages : option object) (w : world) :
  let err := StoreError (Str "ER_SIGNAL_EXCEPTION") Undefined in
  Endpoint.chooseError err messages = Rejected not_a_string /\
  Endpoint.handleError err messages w =
    (Rejected not_a_string, say w [LogError err]).
Proof.
  intros err.
  assert (E : Endpoint.chooseError err messages = Rejected not_a_string)
    by reflexivity.
  split; [exact E|]. now rewrite handleError_run, E.
Qed.

End ErrorFacts.


Section HandlerFacts.
Context {dialect : Db.Dialect} {paginate : Paginate} {formatter : Formatter}.

(** The organization a handler hands to the gateway for an attached user. *)
Lemma tenant_attached (o : Endpoint.options) (req : request) (u : object)
    (w : world) :
  user req = Obj u ->
  Endpoint.tenant o req w =
    (Resolved (if Endpoint.hasOrganizationID o
               then get u "organizationID" else Boolean false), w).
Proof.
  intros Hu. unfold Endpoint.tenant.
  destruct (Endpoint.hasOrganizationID o); [now rewrite Hu|reflexivity].
Qed.

Lemma delete_reports (t c : string) (o : Endpoint.options) (req : request)
    (ps u : object) (w w1 : world) (n : nat) :
  params req = Obj ps -> user req = Obj u ->
  let v := get ps c in
  let org := if Endpoint.hasOrganizationID o
             then get u "organizationID" else Boolean false in
  Db.delete t (Str c) v org (Endpoint.bindModify (Endpoint.modify o) req) w =
    (Resolved n, w1) ->
  Endpoint.delete t c o req w =
    (Resolved tt,
     say w1
       [ if (0 <? n)%nat
         then Send 200
                (Obj [("message",
                       Endpoint.chooseMessage "delete" (Endpoint.messages o));
                      ("id", v)])
         else Send 204 Undefined;
         Next None ]).
Proof.
  intros Hp Hu v org Hd. unfold Endpoint.delete.
  rewrite Hp, member_Obj.
  rewrite (bind_resolved _ _ w w v) by reflexivity.
  rewrite (bind_resolved _ _ w w org) by now apply tenant_attached.
  apply catch_resolved.
  rewrite (bind_resolved _ _ _ _ _ Hd).
  destruct (0 <? n)%nat;
    unfold bind, res_send, res_send_code, next, emit, say; simpl;
    now rewrite <- app_assoc.
Qed.

Lemma delete_run (t c : string) (o : Endpoint.options) (req : request)
    (ps u : object) (w : world) :
  params req = Obj ps -> user req = Obj u -> faults w = [] ->
  let v := get ps c in
  let org := if Endpoint.hasOrganizationID o
             then get u "organizationID" else Boolean false in
  let q := Db.scoped t (Str c) v org
             (Endpoint.bindModify (Endpoint.modify o) req) in
  let kept := filter (fun r => negb (Db.touched q r)) (Db.table (db w) t) in
  Endpoint.delete t c o req w =
    (Resolved tt,
     say (with_db w (Db.set_table (db w) t kept))
       [ if (0 <? Db.count (Db.touched q) (Db.table (db w) t))%nat
         then Send 200
                (Obj [("message",
                       Endpoint.chooseMessage "delete" (Endpoint.messages o));
                      ("id", v)])
         else Send 204 Undefined;
         Next None ]).
Proof.
  intros Hp Hu Hf v org q kept.
  apply (delete_reports t c o req ps u w _ _ Hp Hu).
  exact (DbFacts.delete_calm t (Str c) v org _ w Hf).
Qed.

(** C5. The delete handler answers [{message, id}], the message being the
    configured or the default "Deleted" text and the id the addressed key,
    when the gateway reports rows removed, and an empty 204 when it reports
    none; deleting the same key again is answered with the empty 204 and
    leaves every table as it was. *)
Theorem delete_response (t c : string) (o : Endpoint.options) (req : request)
    (ps u : object) (w : world) :
  params req = Obj ps -> user req = Obj u ->
  let v := get ps c in
  let org := if Endpoint.hasOrganizationID o
             then get u "organizationID" else Boolean false in
  let m := Endpoint.bindModify (Endpoint.modify o) req in
  let q := Db.scoped t (Str c) v org m in
  let n := Db.count (Db.touched q) (Db.table (db w) t) in
  let message := or_else (custom (Endpoint.messages o) "delete") (Str "Deleted") in
  let deleted := Send 200 (Obj [("message", message); ("id", v)]) in
  let empty := Send 204 Undefined in
  (forall k w1,
     Db.delete t (Str c) v org m w = (Resolved k, w1) ->
     Endpoint.delete t c o req w =
       (Resolved tt, say w1 [if (0 <? k)%nat then deleted else empty; Next None])) /\
  (faults w = [] ->
   exists w1 w2,
     Endpoint.delete t c o req w = (Resolved tt, w1) /\
     Endpoint.delete t c o req w1 = (Resolved tt, w2) /\
     (0 < n -> out w1 = out w ++ [deleted; Next None]) /\
     (n = 0 ->
      out w1 = out w ++ [empty; Next None] /\
      forall t', Db.table (db w1) t' = Db.table (db w) t') /\
     out w2 = out w1 ++ [empty; Next None] /\
     (forall t', Db.table (db w2) t' = Db.table (db w1) t')).
Proof.
  intros Hp Hu v org m q n message deleted empty.
  assert (Hmsg : Endpoint.chooseMessage "delete" (Endpoint.messages o) = message)
    by (apply chooseMessage_custom; reflexivity).
  split.
  { intros k w1 Hd.
    pose proof (delete_reports t c o req ps u w w1 k Hp Hu Hd) as H.
    cbv zeta in H. now rewrite Hmsg in H. }
  intros Hf.
  pose proof (delete_run t c o req ps u w Hp Hu Hf) as H1.
  cbv zeta in H1. fold v org m q n in H1.
  set (kept := filter (fun r => negb (Db.touched q r)) (Db.table (db w) t)) in *.
  set (w1 := say (with_db w (Db.set_table (db w) t kept)) _) in H1.
  assert (Hf1 : faults w1 = []) by exact Hf.
  pose proof (delete_run t c o req ps u w1 Hp Hu Hf1) as H2.
  cbv zeta in H2. fold v org m q in H2.
  assert (Hdb1 : Db.table (db w1) t = kept)
    by (subst w1; simpl; apply DbFacts.table_set_table).
  rewrite Hdb1 in H2.
  assert (Hnone : filter (Db.touched q) kept = [])
    by apply DbFacts.filter_untouched.
  unfold Db.count in H2. rewrite Hnone in H2. simpl in H2.
  rewrite (DbFacts.filter_none _ _ Hnone) in H2.
  eexists. eexists. split; [exact H1|]. split; [exact H2|].
  repeat split.
  - intros Hn. subst w1. simpl.
    apply Nat.ltb_lt in Hn. rewrite Hn. now rewrite Hmsg.
  - subst w1. simpl. rewrite H. reflexivity.
  - intros t'. subst w1. simpl. subst kept.
    unfold n, Db.count in H. apply length_zero_iff_nil in H.
    rewrite (DbFacts.filter_none _ _ H).
    destruct (String.eqb_spec t t') as [<- | Hne].
    + apply DbFacts.table_set_table.
    + now apply DbFacts.table_set_table_other.
  - intros t'. simpl.
    destruct (String.eqb_spec t t') as [<- | Hne].
    + now rewrite DbFacts.table_set_table.
    + now rewrite DbFacts.table_set_table_other.
Qed.

Lemma plain_no_window (cs : list Db.clause) :
  forallb plain cs = true ->
  Db.limit_of (Db.flatten cs) = None /\ Db.offset_of (Db.flatten cs) = 0.
Proof.
  induction cs as [|c cs IH]; simpl; [auto|].
  intros H. apply andb_true_iff in H. destruct H as [Hc Hcs].
  destruct (IH Hcs) as [Hl Ho].
  unfold Db.flatten in *. simpl.
  destruct c; try discriminate Hc; simpl; auto.
Qed.

Lemma listing_plain (t : string) (org : value) (sortBy : list (string * bool))
    (search : option (list string * value)) :
  forallb plain (Db.q_clauses (Db.listing t org None sortBy search)) = true.
Proof.
  unfold Db.listing, Db.scoped, Db.modify, Db.chain, Db.knex, Db.buildWhere.
  simpl. rewrite !forallb_app.
  assert (Hsort : forallb plain (Db.sortClauses sortBy) = true)
    by (unfold Db.sortClauses; induction sortBy; simpl; auto).
  rewrite Hsort.
  destruct (truthy org); destruct search as [[cols v]|]; reflexivity.
Qed.

Lemma getAll_run (t : string) (o : Endpoint.options) (req : request)
    (ps u : object) (w : world) :
  params req = Obj ps -> user req = Obj u -> faults w = [] ->
  let org := if Endpoint.hasOrganizationID o
             then get u "organizationID" else Boolean false in
  let search := if truthy (get ps "search")
                then Some (Endpoint.searchColumns o, get ps "search") else None in
  let q := Db.listing t org (Endpoint.bindModify (Endpoint.modify o) req)
             (Endpoint.sortBy o) search in
  let results := Arr (map Obj (Endpoint.sortIndexed 0 (Db.rows (db w) q))) in
  Endpoint.getAll t o req w =
    (Resolved tt,
     say w ((if truthy (get ps "limit") || truthy (get ps "offset")
             then [Links (link_relations req t (db w))] else []) ++
            [Send 200 (Obj [("results", results)]); Next None])).
Proof.
  intros Hp Hu Hf org search q results. unfold Endpoint.getAll.
  rewrite Hp, member_Obj.
  rewrite (bind_resolved _ _ w w (get ps "search")) by reflexivity.
  rewrite (bind_resolved _ _ w w org) by now apply tenant_attached.
  apply catch_resolved.
  rewrite (bind_resolved _ _ _ _ _ (DbFacts.getAll_calm t org _ _ _ w Hf)).
  fold search q results.
  assert (Hpg : truthy (Endpoint.paginated req) =
                truthy (get ps "limit") || truthy (get ps "offset")).
  { unfold Endpoint.paginated. rewrite Hp. unfold and_then. simpl.
    apply truthy_or. }
  rewrite Hpg.
  destruct (truthy (get ps "limit") || truthy (get ps "offset")).
  - assert (Ha : addLinks req t w =
                 (Resolved tt, say w [Links (link_relations req t (db w))])).
    { unfold addLinks.
      rewrite (bind_resolved _ _ w w tt) by now apply external_calm.
      reflexivity. }
    rewrite (bind_resolved _ _ _ _ _ Ha).
    unfold bind, res_send, next, emit, say. simpl.
    now rewrite <- !app_assoc.
  - unfold bind, res_send, next, emit, say. simpl.
    now rewrite <- !app_assoc.
Qed.










(** What [create] leaves in the store once the insertion went through:
    the row for the body as the guard left it; the re-fetch and the answer
    change nothing any more.  With messages that are plain texts the
    handler settles without throwing. *)
Lemma create_stores (t : string) (cv : value) (o : Endpoint.options)
    (req req' : request) (b : object) (w : world) :
  Endpoint.backfill o req w = (Resolved req', w) ->
  body req' = Obj b -> faults w = [] ->
  exists outcome w',
    Endpoint.create t cv o req w = (outcome, w') /\
    db w' = Db.set_table (db w) t
              (Db.table (db w) t ++
               [fst (Db.stored t (Db.table (db w) t) b)]) /\
    (formal (Endpoint.messages o) -> outcome = Resolved tt).
Proof.
  intros Hk Hb Hf. unfold Endpoint.create.
  rewrite (bind_resolved _ _ _ _ _ Hk). rewrite Hb. simpl as_object.
  pose proof (DbFacts.insert_calm t b w Hf) as Ei. cbv zeta in Ei.
  set (w1 := with_db w _) in Ei.
  assert (Hf1 : faults w1 = []) by exact Hf.
  pose proof (DbFacts.get_calm t cv
                (hd Undefined [snd (Db.stored t (Db.table (db w) t) b)])
                (Boolean false)
                (Endpoint.bindModify (Endpoint.resModify o) req') w1 Hf1) as Eg.
  unfold catch, Db.create, bind. rewrite Ei, Eg.
  destruct (Db.rows (db w1) _) as [|r rest].
  - rewrite handleError_run.
    destruct (Endpoint.chooseError Db.not_found (Endpoint.messages o))
      as [chosen|thrown] eqn:Ec.
    + eexists _, _. split; [reflexivity|]. split; [reflexivity|auto].
    + eexists _, _. split; [reflexivity|]. split; [reflexivity|].
      intros Hformal.
      destruct (chooseError_formal Db.not_found _ Hformal eq_refl) as [x Hx].
      rewrite Hx in Ec. discriminate Ec.
  - eexists _, _. split; [reflexivity|]. split; [reflexivity|auto].
Qed.

(** C10. In [create] with tenant scoping on: with a user attached and a
    falsy [organizationID] in the body (absent, [null], [0], the empty
    string) the handler goes on as the handler without scoping does on the
    body with [organizationID] overwritten by the requester's, and that is
    the row inserted when the store answers; with no user attached, or
    with a truthy [organizationID] in the body, it goes on with the body
    as it was sent, which is then the row inserted. *)
Theorem create_backfill (t : string) (cv : value) (o : Endpoint.options)
    (req : request) (props : object) (w : world) :
  Endpoint.hasOrganizationID o = true ->
  body req = Obj props ->
  let existing := Db.table (db w) t in
  let inserts (payload : object) :=
    exists outcome w',
      Endpoint.create t cv o req w = (outcome, w') /\
      db w' = Db.set_table (db w) t
                (existing ++ [fst (Db.stored t existing payload)]) in
  let goes_on_with (payload : object) :=
    Endpoint.create t cv o req w =
    Endpoint.create t cv (without_scoping o)
      (Request (params req) (Obj payload) (user req)) w in
  let theirs := prop (user req) "organizationID" in
  (truthy (get props "organizationID") = false ->
   truthy (user req) = true ->
   goes_on_with (set props "organizationID" theirs) /\
   (faults w = [] -> inserts (set props "organizationID" theirs)) /\
   get (fst (Db.stored t existing (set props "organizationID" theirs)))
       "organizationID" = theirs) /\
  (truthy (user req) = false \/ truthy (get props "organizationID") = true ->
   goes_on_with props /\ (faults w = [] -> inserts props)) /\
  (forall v, In v [Undefined; Null; Num 0; Str ""] -> truthy v = false) /\
  (includes (keys props) "organizationID" = false ->
   get props "organizationID" = Undefined).
Proof.
  intros Hs Hb existing inserts goes_on_with theirs.
  split; [|split; [|split]].
  - intros Hfalsy Hu.
    set (req' := Request (params req)
                   (Obj (set props "organizationID" theirs)) (user req)).
    assert (Hk : Endpoint.backfill o req w = (Resolved req', w)).
    { unfold Endpoint.backfill. rewrite Hs, Hb, member_Obj.
      rewrite (bind_resolved _ _ w w (get props "organizationID"))
        by reflexivity.
      rewrite Hfalsy, Hu. cbn [negb andb].
      rewrite (member_truthy _ _ Hu).
      rewrite (bind_resolved _ _ w w theirs) by reflexivity.
      unfold set_body. now rewrite Hb. }
    split; [|split].
    + unfold goes_on_with, Endpoint.create. fold req'.
      rewrite (bind_resolved _ _ _ _ _ Hk).
      now rewrite (bind_resolved _ _ w w req') by reflexivity.
    + intros Hf.
      destruct (create_stores t cv o req req'
                  (set props "organizationID" theirs) w Hk eq_refl Hf)
        as (outcome & w' & E & Hd & _).
      exists outcome, w'. now split.
    + rewrite DbFacts.stored_get by apply keys_set_same.
      apply get_set_same.
  - intros H.
    assert (Hk : Endpoint.backfill o req w = (Resolved req, w)).
    { unfold Endpoint.backfill. rewrite Hs, Hb, member_Obj.
      rewrite (bind_resolved _ _ w w (get props "organizationID"))
        by reflexivity.
      destruct H as [H | H]; rewrite H.
      - now rewrite andb_false_r.
      - reflexivity. }
    split.
    + unfold goes_on_with, Endpoint.create.
      rewrite (bind_resolved _ _ _ _ _ Hk).
      rewrite (bind_resolved _ _ w w
                 (Request (params req) (Obj props) (user req)))
        by reflexivity.
      rewrite <- Hb. now destruct req.
    + intros Hf.
      destruct (create_stores t cv o req req props w Hk Hb Hf)
        as (outcome & w' & E & Hd & _).
      exists outcome, w'. now split.
  - intros v Hv. simpl in Hv.
    destruct Hv as [<-|[<-|[<-|[<-|[]]]]]; reflexivity.
  - apply DbFacts.get_absent.
Qed.

(** C7, amended. For a getAll request that the store answers, pagination
    links are added if and only if [limit] or [offset] is present with a
    truthy value (a parameter present but empty, as in [?limit=], counts as
    absent); otherwise the response is the bare [{results}] envelope; and
    the handler and the gateway chain no [limit] or [offset] of their own
    on the query. *)
Theorem getAll_links (t : string) (o : Endpoint.options) (req : request)
    (ps u : object) (w : world) :
  params req = Obj ps -> user req = Obj u -> faults w = [] ->
  let org := if Endpoint.hasOrganizationID o
             then get u "organizationID" else Boolean false in
  let search := if truthy (get ps "search")
                then Some (Endpoint.searchColumns o, get ps "search") else None in
  let q := Db.listing t org (Endpoint.bindModify (Endpoint.modify o) req)
             (Endpoint.sortBy o) search in
  let results := Arr (map Obj (Endpoint.sortIndexed 0 (Db.rows (db w) q))) in
  let answer := [Send 200 (Obj [("results", results)]); Next None] in
  exists evs,
    Endpoint.getAll t o req w = (Resolved tt, say w evs) /\
    ((exists rel, In (Links rel) evs) <->
     truthy (get ps "limit") = true \/ truthy (get ps "offset") = true) /\
    (truthy (get ps "limit") = false -> truthy (get ps "offset") = false ->
     evs = answer) /\
    (truthy (get ps "limit") = true \/ truthy (get ps "offset") = true ->
     evs = Links (link_relations req t (db w)) :: answer) /\
    (Endpoint.modify o = None ->
     forall l, Db.window (Db.flatten (Db.q_clauses q)) l = l).
Proof.
  intros Hp Hu Hf org search q results answer.
  pose proof (getAll_run t o req ps u w Hp Hu Hf) as H.
  cbv zeta in H. fold org search q results answer in H.
  eexists. split; [exact H|].
  split; [|split; [|split]].
  - destruct (truthy (get ps "limit")), (truthy (get ps "offset")); simpl;
      (split;
       [ first [ intros [rel [Hr|[Hr|[]]]]; discriminate Hr
               | intros _; auto ]
       | first [ intros [Hr|Hr]; discriminate Hr
               | intros _; eexists; left; reflexivity ] ]).
  - intros -> ->. reflexivity.
  - intros Ht. apply orb_true_iff in Ht. now rewrite Ht.
  - intros Hm l. subst q. rewrite Hm. simpl Endpoint.bindModify.
    destruct (plain_no_window _ (listing_plain t org (Endpoint.sortBy o) search))
      as [Hl Ho].
    unfold Db.window. now rewrite Hl, Ho.
Qed.

End HandlerFacts.

Lemma delete_response_witness :
  let req := Request (Obj [("kitID", Num 1)]) (Obj []) member94 in
  exists w1 w2,
    Endpoint.delete (dialect := plain_dialect) (formatter := plain_formatter) "kit" "kitID"
      Endpoint.default_options req sample_world = (Resolved tt, w1) /\
    Endpoint.delete (dialect := plain_dialect) (formatter := plain_formatter) "kit" "kitID"
      Endpoint.default_options req w1 = (Resolved tt, w2) /\
    out w1 = [Send 200 (Obj [("message", Str "Deleted"); ("id", Num 1)]); Next None] /\
    out w2 = out w1 ++ [Send 204 Undefined; Next None].
Proof.
  intros req.
  destruct (proj2 (delete_response (dialect := plain_dialect) (formatter := plain_formatter) "kit" "kitID"
                     Endpoint.default_options req
                     [("kitID", Num 1)]
                     [("userID", Num 1); ("organizationID", Num 94);
                      ("roleID", Num 2)]
                     sample_world eq_refl eq_refl) eq_refl)
    as (w1 & w2 & H1 & H2 & H3 & _ & H5 & _).
  exists w1, w2. split; [exact H1|]. split; [exact H2|]. split; [|exact H5].
  apply H3. vm_compute. lia.
Defined.

Lemma getAll_links_witness :
  let req := Request (Obj [("offset", Str "0")]) (Obj []) member94 in
  exists evs,
    Endpoint.getAll (dialect := plain_dialect) (formatter := plain_formatter) (paginate := offset_links)
      "kit" Endpoint.default_options req sample_world =
      (Resolved tt, say sample_world evs) /\
    exists rel, In (Links rel) evs.
Proof.
  intros req.
  destruct (getAll_links (dialect := plain_dialect) (formatter := plain_formatter) (paginate := offset_links)
              "kit" Endpoint.default_options req
              [("offset", Str "0")]
              [("userID", Num 1); ("organizationID", Num 94); ("roleID", Num 2)]
              sample_world eq_refl eq_refl eq_refl)
    as (evs & H1 & H2 & _).
  exists evs. split; [exact H1|]. apply H2. right. reflexivity.
Defined.

Lemma create_backfill_witness :
  let req := Request (Obj [])
               (Obj [("name", Str "Tripod"); ("organizationID", Num 0)])
               member94 in
  exists outcome w',
    Endpoint.create (dialect := plain_dialect) (formatter := plain_formatter)
      "kit" (Str "kitID") Endpoint.default_options req sample_world =
      (outcome, w') /\
    Db.table (db w') "kit" =
      Db.table sample_db "kit" ++
      [[("name", Str "Tripod"); ("organizationID", Num 94)]].
Proof.
  intros req.
  destruct (proj1 (proj2 (proj1 (create_backfill (dialect := plain_dialect)
                                   (formatter := plain_formatter)
                                   "kit" (Str "kitID") Endpoint.default_options
                                   req
                                   [("name", Str "Tripod");
                                    ("organizationID", Num 0)]
                                   sample_world eq_refl eq_refl)
                            eq_refl eq_refl)) eq_refl)
    as (outcome & w' & E & Hd).
  exists outcome, w'. split; [exact E|]. rewrite Hd. reflexivity.
Defined.



(** C7 as stated fails: with [?limit=] the [limit] parameter is present,
    and the response carries no links. *)
Lemma getAll_links_counterexample :
  let req := Request (Obj [("limit", Str "")]) (Obj []) member94 in
  includes (keys (as_object (params req))) "limit" = true /\
  snd (Endpoint.getAll (dialect := plain_dialect) (formatter := plain_formatter) (paginate := offset_links)
         "kit" Endpoint.default_options req sample_world) =
    say sample_world
      [Send 200
         (Obj [("results",
                Arr [Obj [("kitID", Num 1); ("name", Str "Camera kit");
                          ("organizationID", Num 94); ("sortIndex", Num 0)]])]);
       Next None] /\
  forall rel,
    ~ In (Links rel)
        (out (snd (Endpoint.getAll (dialect := plain_dialect) (formatter := plain_formatter)
                     (paginate := offset_links)
                     "kit" Endpoint.default_options req sample_world))).
Proof.
  intros req. split; [reflexivity|]. split; [reflexivity|].
  intros rel H. vm_compute in H. destruct H as [H|[H|[]]]; discriminate H.
Qed.

End EndpointFacts.

Module AuthFacts.

Import Js JsFacts PromiseFacts.

Section ControllerFacts.
Context {dialect : Db.Dialect} {crypto : Auth.Crypto}.

Lemma external_cases (w : world) :
  (faults w = [] /\ external w = (Resolved tt, w)) \/
  (exists fs, faults w = None :: fs /\
              external w = (Resolved tt, World (db w) fs (entropy w) (out w))) \/
  (exists e fs, faults w = Some e :: fs /\
                external w = (Rejected e, World (db w) fs (entropy w) (out w))).
Proof.
  unfold external. destruct (faults w) as [|[e|] fs]; eauto 6.
Qed.

Lemma quiet_get t c v org m : quiet (Db.get t c v org m).
Proof. unfold Db.get. quiet. Qed.

Lemma quiet_insert t payload : quiet (Db.insert t payload).
Proof. unfold Db.insert. quiet. Qed.

Lemma quiet_first q : quiet (Db.first q).
Proof. unfold Db.first. quiet. Qed.

Lemma quiet_first_pluck q c : quiet (Db.first_pluck q c).
Proof. unfold Db.first_pluck. quiet. Qed.

Lemma quiet_compare a b : quiet (Auth.compare a b).
Proof. unfold Auth.compare. quiet. Qed.

Lemma quiet_hash a n : quiet (Auth.hash a n).
Proof. unfold Auth.hash. destruct a; quiet. Qed.

Lemma quiet_makeToken a b c : quiet (Auth.makeToken a b c).
Proof. unfold Auth.makeToken. quiet. Qed.

Lemma quiet_randomHex : quiet Auth.randomHex.
Proof.
  intros w. unfold Auth.randomHex. destruct (entropy w); reflexivity.
Qed.

#[local] Hint Resolve quiet_get quiet_insert quiet_first quiet_first_pluck
  quiet_compare quiet_hash quiet_makeToken quiet_randomHex : quiet.

Lemma authenticate_answers (req : request) (b : object) (w : world) :
  body req = Obj b ->
  truthy (and_then (get b "email") (get b "password")) = true ->
  exists w' evs,
    Auth.authenticate req w = (Resolved tt, w') /\
    out w' = out w ++ evs /\ credential_answer evs.
Proof.
  intros Hb Ht. unfold Auth.authenticate. rewrite Hb, !member_Obj.
  rewrite (bind_resolved _ _ w w (get b "email")) by reflexivity.
  rewrite (bind_resolved _ _ w w (get b "password")) by reflexivity.
  rewrite Ht.
  apply (answers_catch credential_answer).
  - apply answers_bind; [quiet|intros u].
    apply answers_bind; [quiet|intros stored].
    apply answers_bind; [quiet|intros [|]].
    + apply answers_bind; [quiet|intros token].
      apply answers_bind; [quiet|intros hex].
      apply answers_bind; [quiet|intros _].
      apply answers_emit. right. eauto.
    + apply answers_emit. now left.
  - now left.
Qed.

Lemma rows_user_by_email (d : database) (email : value) :
  Db.rows d (user_by_email email) =
    filter (fun r => Db.equal (get r "email") email) (Db.table d "user").
Proof.
  change (user_by_email email) with (Db.Query "user" [Db.Where "user.email" email]).
  rewrite (proj2 (DbFacts.rows_where d "user" "user.email" email false)).
  apply filter_ext. intros o.
  now rewrite <- (DbFacts.column_qualified "user" "email" o).
Qed.

Lemma get_user_none (email : value) (w : world) :
  Db.rows (db w) (user_by_email email) = [] ->
  exists e w',
    Db.get "user" (Str "email") email Undefined None w = (Rejected e, w') /\
    same w w'.
Proof.
  intros H. unfold Db.get. fold (user_by_email email).
  destruct (external_cases w) as [[_ E]|[(fs & _ & E)|(e & fs & _ & E)]].
  - rewrite (bind_resolved _ _ _ _ _ E). unfold bind, get_db. rewrite H.
    eexists _, _. split; [reflexivity|]. now split.
  - rewrite (bind_resolved _ _ _ _ _ E). unfold bind, get_db. simpl. rewrite H.
    eexists _, _. split; [reflexivity|]. now split.
  - rewrite (bind_rejected _ _ _ _ _ E).
    eexists _, _. split; [reflexivity|]. now split.
Qed.

Lemma get_user_some (email : value) (w : world) (u : object) (rest : list object) :
  Db.rows (db w) (user_by_email email) = u :: rest ->
  (exists w',
     Db.get "user" (Str "email") email Undefined None w = (Resolved (Obj u), w') /\
     same w w' /\ faults w' = tl (faults w) /\ entropy w' = entropy w /\
     hd None (faults w) = None) \/
  (exists e w',
     Db.get "user" (Str "email") email Undefined None w = (Rejected e, w') /\
     same w w' /\ hd None (faults w) = Some e).
Proof.
  intros H. unfold Db.get. fold (user_by_email email).
  destruct (external_cases w) as [[F E]|[(fs & F & E)|(e & fs & F & E)]].
  - left. rewrite (bind_resolved _ _ _ _ _ E). unfold bind, get_db. rewrite H.
    eexists. split; [reflexivity|]. rewrite F. repeat split.
  - left. rewrite (bind_resolved _ _ _ _ _ E). unfold bind, get_db. simpl.
    rewrite H. eexists. split; [reflexivity|]. rewrite F. repeat split.
  - right. rewrite (bind_rejected _ _ _ _ _ E).
    eexists _, _. split; [reflexivity|]. rewrite F. repeat split.
Qed.

(** A comparison that cannot come out true: it resolves to [false] or is
    rejected. *)
Lemma compare_refuses (a b : value) (w : world) :
  (forall p h, a = Str p -> b = Str h -> Auth.bcrypt_compare p h = false) ->
  exists w',
    same w w' /\
    (Auth.compare a b w = (Resolved false, w') \/
     exists e, Auth.compare a b w = (Rejected e, w')).
Proof.
  intros Hc. unfold Auth.compare.
  assert (Hpure : forall w0,
             (match a, b with
              | Str d, Str h => ret (Auth.bcrypt_compare d h)
              | _, _ => throw (LibraryError "data and hash must be strings")
              end) w0 = (Resolved false, w0) \/
             exists e,
               (match a, b with
                | Str d, Str h => ret (Auth.bcrypt_compare d h)
                | _, _ => throw (LibraryError "data and hash must be strings")
                end) w0 = (Rejected e, w0)).
  { intros w0. destruct a; try (right; eexists; reflexivity).
    destruct b; try (right; eexists; reflexivity).
    left. unfold ret. now rewrite (Hc s s0). }
  destruct (external_cases w) as [[_ E]|[(fs & _ & E)|(e & fs & _ & E)]].
  - rewrite (bind_resolved _ _ _ _ _ E). exists w. split; [now split|].
    apply Hpure.
  - rewrite (bind_resolved _ _ _ _ _ E). eexists. split; [|apply Hpure].
    now split.
  - rewrite (bind_rejected _ _ _ _ _ E). eexists. split; [|right; eauto].
    now split.
Qed.

Lemma refused (w w0 : world) :
  same w w0 ->
  exists w', next_err Auth.incorrect w0 = (Resolved tt, w') /\
             out w' = out w ++ [Next (Some Auth.incorrect)] /\ db w' = db w.
Proof.
  intros [Ho Hd]. eexists. split; [reflexivity|]. simpl. now rewrite Ho, Hd.
Qed.

(** An unknown email: the user is not found, or the store fails. *)
Lemma authenticate_unknown (req : request) (b : object) (w : world) :
  body req = Obj b ->
  truthy (and_then (get b "email") (get b "password")) = true ->
  filter (fun r => Db.equal (get r "email") (get b "email"))
         (Db.table (db w) "user") = [] ->
  exists w', Auth.authenticate req w = (Resolved tt, w') /\
             out w' = out w ++ [Next (Some Auth.incorrect)] /\ db w' = db w.
Proof.
  intros Hb Ht Hn. unfold Auth.authenticate. rewrite Hb, !member_Obj.
  rewrite (bind_resolved _ _ w w (get b "email")) by reflexivity.
  rewrite (bind_resolved _ _ w w (get b "password")) by reflexivity.
  rewrite Ht. rewrite <- rows_user_by_email in Hn.
  destruct (get_user_none _ _ Hn) as (e & w0 & E & Hs).
  rewrite (catch_rejected _ _ w w0 e) by now rewrite (bind_rejected _ _ _ _ _ E).
  now apply refused.
Qed.

(** A known email with a password that does not compare. *)
Lemma authenticate_wrong_password (req : request) (b u : object)
    (rest : list object) (w : world) :
  body req = Obj b ->
  truthy (and_then (get b "email") (get b "password")) = true ->
  filter (fun r => Db.equal (get r "email") (get b "email"))
         (Db.table (db w) "user") = u :: rest ->
  (forall p h, get b "password" = Str p -> get u "password" = Str h ->
               Auth.bcrypt_compare p h = false) ->
  exists w', Auth.authenticate req w = (Resolved tt, w') /\
             out w' = out w ++ [Next (Some Auth.incorrect)] /\ db w' = db w.
Proof.
  intros Hb Ht Hu Hc. unfold Auth.authenticate. rewrite Hb, !member_Obj.
  rewrite (bind_resolved _ _ w w (get b "email")) by reflexivity.
  rewrite (bind_resolved _ _ w w (get b "password")) by reflexivity.
  rewrite Ht. rewrite <- rows_user_by_email in Hu.
  destruct (get_user_some _ _ _ _ Hu) as [(w0 & E & Hs & _)|(e & w0 & E & Hs & _)].
  - destruct (compare_refuses _ _ w0 Hc) as (w1 & [Ho1 Hd1] & [E1|(e & E1)]).
    + rewrite (catch_resolved _ _ w (say w1 [Next (Some Auth.incorrect)]) tt).
      * eexists. split; [reflexivity|]. destruct Hs as [Ho Hd]. simpl.
        now rewrite Ho1, Ho, Hd1, Hd.
      * rewrite (bind_resolved _ _ _ _ _ E). rewrite member_Obj.
        rewrite (bind_resolved _ _ w0 w0 (get u "password")) by reflexivity.
        now rewrite (bind_resolved _ _ _ _ _ E1).
    + rewrite (catch_rejected _ _ w w1 e).
      * apply refused. destruct Hs as [Ho Hd]. split; congruence.
      * rewrite (bind_resolved _ _ _ _ _ E). rewrite member_Obj.
        rewrite (bind_resolved _ _ w0 w0 (get u "password")) by reflexivity.
        now rewrite (bind_rejected _ _ _ _ _ E1).
  - rewrite (catch_rejected _ _ w w0 e) by now rewrite (bind_rejected _ _ _ _ _ E).
    now apply refused.
Qed.

(** C3. An authenticate call with an email no user row has, and one with a
    known email and a password that bcrypt does not accept, are answered
    alike: one Unauthorized error with the same generic message, and
    nothing stored, whatever the store and the libraries do meanwhile. *)
Theorem authenticate_indistinguishable
    (req1 req2 : request) (b1 b2 u : object) (rest : list object)
    (w1 w2 : world) :
  body req1 = Obj b1 ->
  truthy (and_then (get b1 "email") (get b1 "password")) = true ->
  filter (fun r => Db.equal (get r "email") (get b1 "email"))
         (Db.table (db w1) "user") = [] ->
  body req2 = Obj b2 ->
  truthy (and_then (get b2 "email") (get b2 "password")) = true ->
  filter (fun r => Db.equal (get r "email") (get b2 "email"))
         (Db.table (db w2) "user") = u :: rest ->
  (forall p h, get b2 "password" = Str p -> get u "password" = Str h ->
               Auth.bcrypt_compare p h = false) ->
  let refusal :=
    Next (Some (HttpError Http.Unauthorized
                  (Str "Email and password combination is incorrect"))) in
  exists w1' w2',
    Auth.authenticate req1 w1 = (Resolved tt, w1') /\
    Auth.authenticate req2 w2 = (Resolved tt, w2') /\
    out w1' = out w1 ++ [refusal] /\
    out w2' = out w2 ++ [refusal] /\
    db w1' = db w1 /\ db w2' = db w2.
Proof.
  intros Hb1 Ht1 Hn Hb2 Ht2 Hu Hc refusal.
  destruct (authenticate_unknown req1 b1 w1 Hb1 Ht1 Hn) as (w1' & E1 & O1 & D1).
  destruct (authenticate_wrong_password req2 b2 u rest w2 Hb2 Ht2 Hu Hc)
    as (w2' & E2 & O2 & D2).
  exists w1', w2'. repeat split; assumption.
Qed.

Lemma authenticate_fetch_fails (req : request) (b : object) (w : world)
    (e : error) (fs : list (option error)) :
  body req = Obj b ->
  truthy (and_then (get b "email") (get b "password")) = true ->
  faults w = Some e :: fs ->
  Auth.authenticate req w =
    (Resolved tt,
     say (World (db w) fs (entropy w) (out w)) [Next (Some Auth.incorrect)]).
Proof.
  intros Hb Ht Hf. unfold Auth.authenticate. rewrite Hb, !member_Obj.
  rewrite (bind_resolved _ _ w w (get b "email")) by reflexivity.
  rewrite (bind_resolved _ _ w w (get b "password")) by reflexivity.
  rewrite Ht.
  erewrite catch_rejected; [reflexivity|].
  apply bind_rejected. unfold Db.get. apply bind_rejected.
  unfold external. now rewrite Hf.
Qed.

Lemma authenticate_persist_fails (req : request) (b u : object)
    (rest : list object) (p h : string) (w : world)
    (e : error) (fs : list (option error)) :
  body req = Obj b ->
  truthy (and_then (get b "email") (get b "password")) = true ->
  filter (fun r => Db.equal (get r "email") (get b "email"))
         (Db.table (db w) "user") = u :: rest ->
  get b "password" = Str p -> get u "password" = Str h ->
  Auth.bcrypt_compare p h = true ->
  faults w = None :: None :: None :: Some e :: fs ->
  Auth.authenticate req w =
    (Resolved tt,
     say (World (db w) fs (tl (entropy w)) (out w)) [Next (Some Auth.incorrect)]).
Proof.
  intros Hb Ht Hu Hp Hh Hc Hf. unfold Auth.authenticate. rewrite Hb, !member_Obj.
  rewrite (bind_resolved _ _ w w (get b "email")) by reflexivity.
  rewrite (bind_resolved _ _ w w (get b "password")) by reflexivity.
  rewrite Ht, Hp. rewrite <- rows_user_by_email in Hu.
  destruct w as [d fs0 en o]. simpl in *. subst fs0.
  set (w1 := World d (None :: None :: Some e :: fs) en o).
  set (w2 := World d (None :: Some e :: fs) en o).
  set (w3 := World d (Some e :: fs) en o).
  set (w4 := World d (Some e :: fs) (tl en) o).
  set (w5 := World d fs (tl en) o).
  erewrite catch_rejected with (w' := w5) (e := e); [reflexivity|].
  assert (E0 : Db.get "user" (Str "email") (get b "email") Undefined None
                 (World d (None :: None :: None :: Some e :: fs) en o) =
               (Resolved (Obj u), w1)).
  { unfold Db.get. fold (user_by_email (get b "email")).
    erewrite bind_resolved by reflexivity.
    unfold bind, get_db. simpl. now rewrite Hu. }
  rewrite (bind_resolved _ _ _ _ _ E0). rewrite member_Obj, Hh.
  rewrite (bind_resolved _ _ w1 w1 (Str h)) by reflexivity.
  assert (E1 : Auth.compare (Str p) (Str h) w1 = (Resolved true, w2)).
  { unfold Auth.compare. erewrite bind_resolved by reflexivity.
    now rewrite Hc. }
  rewrite (bind_resolved _ _ _ _ _ E1).
  erewrite (bind_resolved _ _ w2 w3) by reflexivity.
  assert (E3 : Auth.randomHex w3 = (Resolved (hd "" en), w4)).
  { unfold Auth.randomHex, w3, w4. simpl. destruct en; reflexivity. }
  rewrite (bind_resolved _ _ _ _ _ E3).
  apply bind_rejected. unfold Db.insert. now apply bind_rejected.
Qed.

(** C8. Once email and password are both there, every failure inside
    [authenticate] is answered with Unauthorized and the generic credential
    message: the call settles with that one error or with the success
    response, whatever the store, bcrypt and the signer do; a store error
    while the user is fetched and a store error while the refresh token is
    persisted both give that same Unauthorized, never the store's own error
    nor InternalServerError, and leave the store as it was. *)
Theorem authenticate_masks_errors (req : request) (b : object) (w : world) :
  body req = Obj b ->
  truthy (and_then (get b "email") (get b "password")) = true ->
  let refusal :=
    Next (Some (HttpError Http.Unauthorized
                  (Str "Email and password combination is incorrect"))) in
  (exists w' evs,
     Auth.authenticate req w = (Resolved tt, w') /\
     out w' = out w ++ evs /\
     (evs = [refusal] \/
      exists id refreshToken token,
        evs = [Send 200 (Obj [("id", id); ("refreshToken", refreshToken);
                              ("token", token);
                              ("message", Str "Authentication successful")])])) /\
  (forall e fs, faults w = Some e :: fs ->
     exists w', Auth.authenticate req w = (Resolved tt, w') /\
                out w' = out w ++ [refusal] /\ db w' = db w) /\
  (forall u rest p h e fs,
     filter (fun r => Db.equal (get r "email") (get b "email"))
            (Db.table (db w) "user") = u :: rest ->
     get b "password" = Str p -> get u "password" = Str h ->
     Auth.bcrypt_compare p h = true ->
     faults w = None :: None :: None :: Some e :: fs ->
     exists w', Auth.authenticate req w = (Resolved tt, w') /\
                out w' = out w ++ [refusal] /\ db w' = db w).
Proof.
  intros Hb Ht refusal. split; [|split].
  - exact (authenticate_answers req b w Hb Ht).
  - intros e fs Hf. eexists. split.
    + exact (authenticate_fetch_fails req b w e fs Hb Ht Hf).
    + now split.
  - intros u rest p h e fs Hu Hp Hh Hc Hf. eexists. split.
    + exact (authenticate_persist_fails req b u rest p h w e fs Hb Ht Hu Hp Hh Hc Hf).
    + now split.
Qed.

Lemma found_tokens (d : database) (userID : value) :
  map (fun jr => Db.column "refreshToken" jr "refreshToken")
      (Db.run d (Db.chain (tokens_of userID) [Db.Limit 1])) =
    firstn 1 (stored_tokens d userID).
Proof.
  change (Db.chain (tokens_of userID) [Db.Limit 1])
    with (Db.Query "refreshToken" [Db.Where "userID" userID; Db.Limit 1]).
  rewrite (proj1 (DbFacts.rows_where d "refreshToken" "userID" userID true)).
  rewrite map_map.
  rewrite (map_ext _ (fun o => get o "refreshToken"))
    by (intros o; now apply DbFacts.column_bare).
  rewrite (filter_ext _ (fun o => Db.equal (get o "userID") userID))
    by (intros o; now rewrite DbFacts.column_bare).
  unfold stored_tokens. now rewrite firstn_map.
Qed.

Lemma found_user (d : database) (userID : value) :
  Db.rows d (Db.chain (user_by_id userID) [Db.Limit 1]) =
    firstn 1 (filter (fun o => Db.equal (get o "userID") userID)
                     (Db.table d "user")).
Proof.
  change (Db.chain (user_by_id userID) [Db.Limit 1])
    with (Db.Query "user" [Db.Where "userID" userID; Db.Limit 1]).
  rewrite (proj2 (DbFacts.rows_where d "user" "userID" userID true)).
  now rewrite (filter_ext _ (fun o => Db.equal (get o "userID") userID))
    by (intros o; now rewrite DbFacts.column_bare).
Qed.

Lemma hd_firstn_1 {A} (a : A) (l : list A) : hd a (firstn 1 l) = hd a l.
Proof. destruct l; reflexivity. Qed.

Lemma truthy_defined (v : value) : truthy v = true -> strict_eq v Undefined = false.
Proof. destruct v; simpl; auto; discriminate. Qed.

Lemma first_pluck_calm (userID : value) (w : world) :
  faults w = [] ->
  Db.first_pluck (tokens_of userID) "refreshToken" w =
    (Resolved (firstn 1 (stored_tokens (db w) userID)), w).
Proof.
  intros Hf. unfold Db.first_pluck.
  rewrite (bind_resolved _ _ w w tt) by now apply external_calm.
  unfold bind, get_db. now rewrite found_tokens.
Qed.

Lemma first_user_calm (userID : value) (w : world) :
  faults w = [] ->
  Db.first (user_by_id userID) w =
    (Resolved
       match filter (fun o => Db.equal (get o "userID") userID)
                    (Db.table (db w) "user") with
       | [] => Undefined
       | u :: _ => Obj u
       end, w).
Proof.
  intros Hf. unfold Db.first.
  rewrite (bind_resolved _ _ w w tt) by now apply external_calm.
  unfold bind, get_db. rewrite found_user.
  now destruct (filter _ _).
Qed.

Lemma refresh_mismatch (req : request) (b : object) (w : world) :
  body req = Obj b ->
  truthy (and_then (get b "refreshToken") (get b "userID")) = true ->
  faults w = [] ->
  strict_eq (get b "refreshToken")
            (hd Undefined (stored_tokens (db w) (get b "userID"))) = false ->
  Auth.refresh req w = (Resolved tt, say w [Next (Some invalid_token)]).
Proof.
  intros Hb Ht Hf Hne. unfold Auth.refresh. rewrite Hb, !member_Obj.
  rewrite (bind_resolved _ _ w w (get b "refreshToken")) by reflexivity.
  rewrite (bind_resolved _ _ w w (get b "userID")) by reflexivity.
  rewrite Ht. fold (tokens_of (get b "userID")).
  rewrite (bind_resolved _ _ _ _ _ (first_pluck_calm _ w Hf)).
  now rewrite hd_firstn_1, Hne.
Qed.

Lemma refresh_match (req : request) (b u : object) (rest : list object)
    (w : world) :
  body req = Obj b ->
  truthy (and_then (get b "refreshToken") (get b "userID")) = true ->
  faults w = [] ->
  strict_eq (get b "refreshToken")
            (hd Undefined (stored_tokens (db w) (get b "userID"))) = true ->
  filter (fun o => Db.equal (get o "userID") (get b "userID"))
         (Db.table (db w) "user") = u :: rest ->
  Auth.refresh req w =
    (Resolved tt,
     say w [Send 200
              (Obj [("token",
                     Str (Auth.jwt_sign
                            (Obj [("userID", get u "userID");
                                  ("organizationID", get u "organizationID");
                                  ("roleID", get u "roleID")]) "15m"));
                    ("message", Str "Token refreshed successfully")])]).
Proof.
  intros Hb Ht Hf He Hu. unfold Auth.refresh. rewrite Hb, !member_Obj.
  rewrite (bind_resolved _ _ w w (get b "refreshToken")) by reflexivity.
  rewrite (bind_resolved _ _ w w (get b "userID")) by reflexivity.
  rewrite Ht. fold (tokens_of (get b "userID")).
  rewrite (bind_resolved _ _ _ _ _ (first_pluck_calm _ w Hf)).
  rewrite hd_firstn_1, He. fold (user_by_id (get b "userID")).
  rewrite (bind_resolved _ _ _ _ _ (first_user_calm _ w Hf)).
  rewrite Hu, member_Obj.
  rewrite (bind_resolved _ _ w w (get u "userID")) by reflexivity.
  unfold Auth.makeToken.
  erewrite (bind_resolved _ _ w w); [reflexivity|].
  now rewrite (bind_resolved _ _ w w tt) by now apply external_calm.
Qed.

Lemma refresh_orphan (req : request) (b : object) (w : world) :
  body req = Obj b ->
  truthy (and_then (get b "refreshToken") (get b "userID")) = true ->
  faults w = [] ->
  strict_eq (get b "refreshToken")
            (hd Undefined (stored_tokens (db w) (get b "userID"))) = true ->
  filter (fun o => Db.equal (get o "userID") (get b "userID"))
         (Db.table (db w) "user") = [] ->
  exists e, Auth.refresh req w = (Rejected e, w).
Proof.
  intros Hb Ht Hf He Hu. unfold Auth.refresh. rewrite Hb, !member_Obj.
  rewrite (bind_resolved _ _ w w (get b "refreshToken")) by reflexivity.
  rewrite (bind_resolved _ _ w w (get b "userID")) by reflexivity.
  rewrite Ht. fold (tokens_of (get b "userID")).
  rewrite (bind_resolved _ _ _ _ _ (first_pluck_calm _ w Hf)).
  rewrite hd_firstn_1, He. fold (user_by_id (get b "userID")).
  rewrite (bind_resolved _ _ _ _ _ (first_user_calm _ w Hf)).
  rewrite Hu. eexists. reflexivity.
Qed.

Lemma readonly_refresh (req : request) : readonly (Auth.refresh req).
Proof.
  unfold Auth.refresh, Db.first_pluck, Db.first, Auth.makeToken,
    next_err, res_send.
  readonly.
Qed.

(** What [refresh] compares with.  A refresh request that carries both
    fields and that the store answers succeeds, with a new access token,
    if and only if the supplied token is exactly the one in the first row
    the store yields for that user and the user row is there; a token that
    differs from it is refused with Unauthorized; and no refresh ever
    changes the store. *)
Theorem refresh_first_stored (req : request) (b : object) (w : world) :
  body req = Obj b ->
  truthy (and_then (get b "refreshToken") (get b "userID")) = true ->
  faults w = [] ->
  let storedToken := hd Undefined (stored_tokens (db w) (get b "userID")) in
  let users := filter (fun o => Db.equal (get o "userID") (get b "userID"))
                      (Db.table (db w) "user") in
  ((exists token,
      Auth.refresh req w =
        (Resolved tt,
         say w [Send 200 (Obj [("token", token);
                               ("message", Str "Token refreshed successfully")])]))
   <-> strict_eq (get b "refreshToken") storedToken = true /\ users <> []) /\
  (strict_eq (get b "refreshToken") storedToken = false ->
   Auth.refresh req w = (Resolved tt, say w [Next (Some invalid_token)])) /\
  (forall w0, db (snd (Auth.refresh req w0)) = db w0).
Proof.
  intros Hb Ht Hf storedToken users. split; [|split].
  - split.
    + intros [token E].
      destruct (strict_eq (get b "refreshToken") storedToken) eqn:He.
      * split; [reflexivity|]. intros Hu.
        destruct (refresh_orphan req b w Hb Ht Hf He Hu) as [e E'].
        rewrite E' in E. discriminate E.
      * rewrite (refresh_mismatch req b w Hb Ht Hf He) in E.
        injection E as E. apply app_inv_head in E. discriminate E.
    + intros [He Hu]. destruct users as [|u rest] eqn:Eu; [contradiction|].
      eexists. exact (refresh_match req b u rest w Hb Ht Hf He Eu).
  - intros Hne. now apply (refresh_mismatch req b w).
  - apply readonly_refresh.
Qed.

(** C9. A refresh request for a user with no stored refresh-token row at
    all does not crash: the comparison against the absent value fails and
    the answer is the Unauthorized that a mismatching token gets. *)
Theorem refresh_without_token (req : request) (b : object) (w : world) :
  body req = Obj b ->
  truthy (and_then (get b "refreshToken") (get b "userID")) = true ->
  faults w = [] ->
  stored_tokens (db w) (get b "userID") = [] ->
  Auth.refresh req w =
    (Resolved tt,
     say w [Next (Some (HttpError Http.Unauthorized
                          (Str "Refresh token is invalid")))]) /\
  (forall w2,
     faults w2 = [] ->
     strict_eq (get b "refreshToken")
               (hd Undefined (stored_tokens (db w2) (get b "userID"))) = false ->
     snd (Auth.refresh req w2) =
       say w2 [Next (Some (HttpError Http.Unauthorized
                             (Str "Refresh token is invalid")))]).
Proof.
  intros Hb Ht Hf Hn. split.
  - apply (refresh_mismatch req b w Hb Ht Hf). rewrite Hn. simpl.
    apply truthy_defined. rewrite truthy_and in Ht.
    now apply andb_true_iff in Ht.
  - intros w2 Hf2 Hne. now rewrite (refresh_mismatch req b w2 Hb Ht Hf2 Hne).
Qed.

Lemma required_missing (b : object) :
  (exists key, In key Auth.required /\ ~ In key (keys b)) ->
  forallb (fun key => includes (keys b) key) Auth.required = false.
Proof.
  intros (key & Hk & Hn).
  destruct (forallb _ Auth.required) eqn:E; auto.
  rewrite forallb_forall in E. specialize (E key Hk).
  apply includes_In in E. contradiction.
Qed.

Lemma required_present (b : object) :
  (forall key, In key Auth.required -> In key (keys b)) ->
  forallb (fun key => includes (keys b) key) Auth.required = true.
Proof.
  intros H. apply forallb_forall. intros key Hk.
  apply includes_In. auto.
Qed.

Lemma register_ok (req : request) (b : object) (p : string) (w : world) :
  body req = Obj b ->
  (forall key, In key Auth.required -> In key (keys b)) ->
  get b "password" = Str p ->
  faults w = [] ->
  let payload := set b "password" (Str (Auth.bcrypt_hash p Auth.saltRounds)) in
  let existing := Db.table (db w) "user" in
  let row := fst (Db.stored "user" existing payload) in
  let id := snd (Db.stored "user" existing payload) in
  Auth.register req w =
    (Resolved tt,
     say (with_db w (Db.set_table (db w) "user" (existing ++ [row])))
       [Send 201 (Obj [("id", id);
                       ("message", Str "User successfully registered")])]).
Proof.
  intros Hb Hk Hp Hf payload existing row id. unfold Auth.register.
  rewrite Hb. simpl Auth.object_keys.
  rewrite (bind_resolved _ _ w w (keys b)) by reflexivity.
  rewrite (required_present b Hk). simpl prop. rewrite Hp.
  apply catch_resolved.
  assert (Eh : Auth.hash (Str p) Auth.saltRounds w =
               (Resolved (Auth.bcrypt_hash p Auth.saltRounds), w)).
  { unfold Auth.hash. now rewrite (bind_resolved _ _ w w tt) by now apply external_calm. }
  rewrite (bind_resolved _ _ _ _ _ Eh).
  unfold set_body. rewrite Hb. simpl as_object. fold payload.
  assert (Ei : Db.insert "user" payload w =
               (Resolved [id],
                with_db w (Db.set_table (db w) "user" (existing ++ [row])))).
  { unfold Db.insert.
    rewrite (bind_resolved _ _ w w tt) by now apply external_calm.
    unfold bind, get_db. fold existing. subst row id.
    now destruct (Db.stored "user" existing payload). }
  now rewrite (bind_resolved _ _ _ _ _ Ei).
Qed.

Lemma register_hash_fails (req : request) (b : object) (p : string)
    (w : world) (e : error) (fs : list (option error)) :
  body req = Obj b ->
  (forall key, In key Auth.required -> In key (keys b)) ->
  get b "password" = Str p ->
  faults w = Some e :: fs ->
  Auth.register req w =
    (Resolved tt, say (World (db w) fs (entropy w) (out w)) [Next (Some e)]).
Proof.
  intros Hb Hk Hp Hf. unfold Auth.register.
  rewrite Hb. simpl Auth.object_keys.
  rewrite (bind_resolved _ _ w w (keys b)) by reflexivity.
  rewrite (required_present b Hk). simpl prop. rewrite Hp.
  erewrite catch_rejected; [reflexivity|].
  apply bind_rejected. unfold Auth.hash. apply bind_rejected.
  unfold external. now rewrite Hf.
Qed.

Lemma register_not_text (req : request) (b : object) (w : world) :
  body req = Obj b ->
  (forall key, In key Auth.required -> In key (keys b)) ->
  (forall p, get b "password" <> Str p) ->
  Auth.register req w = (Resolved tt, say w [Next (Some Auth.not_text)]).
Proof.
  intros Hb Hk Hp. unfold Auth.register.
  rewrite Hb. simpl Auth.object_keys.
  rewrite (bind_resolved _ _ w w (keys b)) by reflexivity.
  rewrite (required_present b Hk). simpl prop.
  erewrite catch_rejected; [reflexivity|].
  apply bind_rejected. unfold Auth.hash.
  destruct (get b "password") as [| | | |p| |]; try reflexivity.
  now destruct (Hp p).
Qed.

Lemma register_insert_fails (req : request) (b : object) (p : string)
    (w : world) (e : error) (fs : list (option error)) :
  body req = Obj b ->
  (forall key, In key Auth.required -> In key (keys b)) ->
  get b "password" = Str p ->
  faults w = None :: Some e :: fs ->
  Auth.register req w =
    (Resolved tt, say (World (db w) fs (entropy w) (out w)) [Next (Some e)]).
Proof.
  intros Hb Hk Hp Hf. unfold Auth.register.
  rewrite Hb. simpl Auth.object_keys.
  rewrite (bind_resolved _ _ w w (keys b)) by reflexivity.
  rewrite (required_present b Hk). simpl prop. rewrite Hp.
  erewrite catch_rejected; [reflexivity|].
  erewrite bind_resolved
    with (w' := World (db w) (Some e :: fs) (entropy w) (out w)).
  - apply bind_rejected. unfold Db.insert. now apply bind_rejected.
  - unfold Auth.hash. erewrite bind_resolved; [reflexivity|].
    unfold external. now rewrite Hf.
Qed.

(** C6. A register request whose body lacks one of the five required keys
    is answered with BadRequest and stores nothing.  With all five there,
    a password that is a string is hashed first: when hashing or the
    insertion fails nothing is stored and the error goes to [next]; when
    both succeed, the stored row carries the hash in place of the password
    and the answer is 201 with [{id, message}].  A password that is not a
    string is not hashed: bcrypt's complaint goes to [next] and nothing is
    stored. *)
Theorem register_validates (req : request) (b : object) (w : world) :
  body req = Obj b ->
  ((exists key, In key Auth.required /\ ~ In key (keys b)) ->
   Auth.register req w =
     (Resolved tt, say w [Next (Some (HttpError Http.BadRequest (Str "")))])) /\
  ((forall key, In key Auth.required -> In key (keys b)) ->
   (forall p, get b "password" = Str p -> faults w = [] ->
      let payload := set b "password" (Str (Auth.bcrypt_hash p 10)) in
      let existing := Db.table (db w) "user" in
      let row := fst (Db.stored "user" existing payload) in
      let id := snd (Db.stored "user" existing payload) in
      Auth.register req w =
        (Resolved tt,
         say (with_db w (Db.set_table (db w) "user" (existing ++ [row])))
           [Send 201 (Obj [("id", id);
                           ("message", Str "User successfully registered")])]) /\
      get row "password" = Str (Auth.bcrypt_hash p 10)) /\
   (forall p e fs, get b "password" = Str p ->
      faults w = Some e :: fs ->
      exists w', Auth.register req w = (Resolved tt, w') /\
                 out w' = out w ++ [Next (Some e)] /\ db w' = db w) /\
   (forall p e fs, get b "password" = Str p ->
      faults w = None :: Some e :: fs ->
      exists w', Auth.register req w = (Resolved tt, w') /\
                 out w' = out w ++ [Next (Some e)] /\ db w' = db w) /\
   ((forall p, get b "password" <> Str p) ->
    Auth.register req w = (Resolved tt, say w [Next (Some Auth.not_text)]))).
Proof.
  intros Hb. split.
  - intros Hm. unfold Auth.register. rewrite Hb. simpl Auth.object_keys.
    rewrite (bind_resolved _ _ w w (keys b)) by reflexivity.
    now rewrite (required_missing b Hm).
  - intros Hk. split.
    + intros p Hp Hf payload existing row id. split.
      * exact (register_ok req b p w Hb Hk Hp Hf).
      * subst row payload.
        rewrite DbFacts.stored_get by apply keys_set_same.
        apply get_set_same.
    + split; [|split].
      * intros p e fs Hp Hf. eexists. split.
        -- exact (register_hash_fails req b p w e fs Hb Hk Hp Hf).
        -- now split.
      * intros p e fs Hp Hf. eexists. split.
        -- exact (register_insert_fails req b p w e fs Hb Hk Hp Hf).
        -- now split.
      * exact (register_not_text req b w Hb Hk).
Qed.

End ControllerFacts.

Lemma authenticate_indistinguishable_witness :
  let refusal :=
    Next (Some (HttpError Http.Unauthorized
                  (Str "Email and password combination is incorrect"))) in
  exists w1' w2',
    Auth.authenticate (dialect := plain_dialect) (crypto := toy_crypto)
      (login "nobody@b.com" "secret") sample_world = (Resolved tt, w1') /\
    Auth.authenticate (dialect := plain_dialect) (crypto := toy_crypto)
      (login "a@b.com" "guess") sample_world = (Resolved tt, w2') /\
    out w1' = [refusal] /\ out w2' = [refusal].
Proof.
  intros refusal.
  assert (Hc : forall p h,
             Str "guess" = Str p -> Str "$2b$10$secret" = Str h ->
             Auth.bcrypt_compare (Crypto := toy_crypto) p h = false).
  { intros p h Hp Hh. injection Hp as <-. injection Hh as <-. reflexivity. }
  destruct (authenticate_indistinguishable
              (dialect := plain_dialect) (crypto := toy_crypto)
              (login "nobody@b.com" "secret") (login "a@b.com" "guess")
              [("email", Str "nobody@b.com"); ("password", Str "secret")]
              [("email", Str "a@b.com"); ("password", Str "guess")]
              [("userID", Num 1); ("email", Str "a@b.com");
               ("password", Str "$2b$10$secret"); ("organizationID", Num 94);
               ("roleID", Num 2)]
              [] sample_world sample_world
              eq_refl eq_refl eq_refl eq_refl eq_refl eq_refl Hc)
    as (w1' & w2' & E1 & E2 & O1 & O2 & _).
  exists w1', w2'. repeat split; assumption.
Defined.

Lemma authenticate_masks_errors_witness :
  exists w',
    Auth.authenticate (dialect := plain_dialect) (crypto := toy_crypto)
      (login "a@b.com" "secret") store_down = (Resolved tt, w') /\
    out w' = [Next (Some (HttpError Http.Unauthorized
                            (Str "Email and password combination is incorrect")))] /\
    db w' = sample_db.
Proof.
  exact (proj1 (proj2 (authenticate_masks_errors
                         (dialect := plain_dialect) (crypto := toy_crypto)
                         (login "a@b.com" "secret")
                         [("email", Str "a@b.com"); ("password", Str "secret")]
                         store_down eq_refl eq_refl))
           (StoreError (Str "ECONNREFUSED") Undefined) [] eq_refl).
Defined.

Lemma refresh_without_token_witness :
  Auth.refresh (dialect := plain_dialect) (crypto := toy_crypto)
    (refreshing 1 "1c0ffee") sample_world =
  (Resolved tt,
   say sample_world
     [Next (Some (HttpError Http.Unauthorized (Str "Refresh token is invalid")))]).
Proof.
  exact (proj1 (refresh_without_token
                  (dialect := plain_dialect) (crypto := toy_crypto)
                  (refreshing 1 "1c0ffee")
                  [("refreshToken", Str "1c0ffee"); ("userID", Num 1)]
                  sample_world eq_refl eq_refl eq_refl eq_refl)).
Defined.

Lemma refresh_first_stored_witness :
  exists token,
    Auth.refresh (dialect := plain_dialect) (crypto := toy_crypto)
      (refreshing 1 "1c0ffee") after_two_logins =
    (Resolved tt,
     say after_two_logins
       [Send 200 (Obj [("token", token);
                       ("message", Str "Token refreshed successfully")])]).
Proof.
  apply (proj1 (refresh_first_stored
                  (dialect := plain_dialect) (crypto := toy_crypto)
                  (refreshing 1 "1c0ffee")
                  [("refreshToken", Str "1c0ffee"); ("userID", Num 1)]
                  after_two_logins eq_refl eq_refl eq_refl)).
  split; [reflexivity|]. vm_compute. discriminate.
Defined.

(** C2.  After two logins of the same user the refresh token issued last,
    the one most recently stored, is refused with Unauthorized, and the
    token issued first, the superseded one, is honoured: [refresh]
    compares with the first row the store yields for the user, and
    [authenticate] appends a row at every login. *)
Theorem refresh_latest_refused :
  out after_two_logins =
    [Send 200 (Obj [("id", Num 1); ("refreshToken", Str "1c0ffee");
                    ("token", Str "jwt:1");
                    ("message", Str "Authentication successful")]);
     Send 200 (Obj [("id", Num 1); ("refreshToken", Str "1f00d");
                    ("token", Str "jwt:1");
                    ("message", Str "Authentication successful")])] /\
  stored_tokens (dialect := plain_dialect) (db after_two_logins) (Num 1) =
    [Str "1c0ffee"; Str "1f00d"] /\
  Auth.refresh (dialect := plain_dialect) (crypto := toy_crypto)
    (refreshing 1 "1f00d") after_two_logins =
    (Resolved tt, say after_two_logins [Next (Some invalid_token)]) /\
  Auth.refresh (dialect := plain_dialect) (crypto := toy_crypto)
    (refreshing 1 "1c0ffee") after_two_logins =
    (Resolved tt,
     say after_two_logins
       [Send 200 (Obj [("token", Str "jwt:1");
                       ("message", Str "Token refreshed successfully")])]).
Proof. repeat split. Qed.

Lemma register_validates_witness :
  Auth.register (dialect := plain_dialect) (crypto := toy_crypto)
    (Request (Obj []) (Obj [("email", Str "ada@b.com"); ("password", Str "engine")])
       Undefined)
    sample_world =
    (Resolved tt,
     say sample_world [Next (Some (HttpError Http.BadRequest (Str "")))]) /\
  exists w',
    Auth.register (dialect := plain_dialect) (crypto := toy_crypto)
      (Request (Obj []) (Obj registration) Undefined) sample_world =
      (Resolved tt, w') /\
    out w' = [Send 201 (Obj [("id", Num 2);
                             ("message", Str "User successfully registered")])] /\
    map (fun r => get r "password") (Db.table (db w') "user") =
      [Str "$2b$10$secret"; Str "$2b$10$engine"].
Proof.
  split.
  - apply (proj1 (register_validates
                    (dialect := plain_dialect) (crypto := toy_crypto)
                    (Request (Obj [])
                       (Obj [("email", Str "ada@b.com"); ("password", Str "engine")])
                       Undefined)
                    [("email", Str "ada@b.com"); ("password", Str "engine")]
                    sample_world eq_refl)).
    exists "firstName". split; [simpl; auto|].
    simpl. intros [H|[H|[]]]; discriminate H.
  - assert (Hk : forall key, In key Auth.required -> In key (keys registration)).
    { intros key Hk. simpl in Hk. simpl.
      repeat (destruct Hk as [<-|Hk]; [tauto|]). destruct Hk. }
    destruct (proj2 (register_validates
                       (dialect := plain_dialect) (crypto := toy_crypto)
                       (Request (Obj []) (Obj registration) Undefined)
                       registration sample_world eq_refl) Hk) as [Hok _].
    destruct (Hok "engine" eq_refl eq_refl) as [E _].
    eexists. split; [exact E|]. split; reflexivity.
Defined.

(** Two bodies that hold all five keys and are not answered with 201: one
    whose password is the number 123, and one that the store refuses. *)
Lemma register_validates_counterexample :
  forallb (fun key => includes (keys numeric_registration) key)
    Auth.required = true /\
  Auth.register (dialect := plain_dialect) (crypto := toy_crypto)
    (Request (Obj []) (Obj numeric_registration) Undefined) sample_world =
    (Resolved tt, say sample_world [Next (Some Auth.not_text)]) /\
  forallb (fun key => includes (keys registration) key) Auth.required = true /\
  Auth.register (dialect := plain_dialect) (crypto := toy_crypto)
    (Request (Obj []) (Obj registration) Undefined) store_refuses =
    (Resolved tt,
     World sample_db [] ["c0ffee"]
       [Next (Some (StoreError (Str "ER_DUP_ENTRY") (Str "Duplicate entry")))]).
Proof. repeat split. Qed.

End AuthFacts.

Module GuardFacts.

Import Js JsFacts PromiseFacts.

Lemma digits_uint (d : Decimal.uint) : forall (rest : string) (a : Z),
  Guards.digits (NilEmpty.string_of_uint d ++ rest) (Some a) =
  Guards.digits rest (Some (uint_acc d a)).
Proof.
  induction d; intros rest a; simpl; auto; rewrite IHd; reflexivity.
Qed.

Lemma uint_acc_pos (d : Decimal.uint) : forall p : positive,
  uint_acc d (Z.pos p) = Z.pos (Pos.of_uint_acc d p).
Proof.
  induction d; intros p; cbn [uint_acc Pos.of_uint_acc]; auto;
    match goal with
    | |- uint_acc _ ?x = Z.pos (Pos.of_uint_acc _ ?y) =>
        replace x with (Z.pos y) by lia; apply IHd
    end.
Qed.

Lemma uint_acc_zero (d : Decimal.uint) :
  uint_acc d 0 = Z.of_N (Pos.of_uint d).
Proof.
  induction d; cbn [uint_acc Pos.of_uint]; auto;
    match goal with
    | |- uint_acc _ ?x = Z.of_N (N.pos (Pos.of_uint_acc _ ?y)) =>
        change x with (Z.pos y); apply uint_acc_pos
    end.
Qed.

Lemma digits_stops (rest : string) (acc : option Z) :
  stops rest -> Guards.digits rest acc = acc.
Proof. destruct rest; simpl; auto. now intros ->. Qed.

(** The digits of a positive number, read from the start. *)
Lemma digits_positive (p : positive) (rest : string) :
  stops rest ->
  Guards.digits (NilEmpty.string_of_uint (Pos.to_uint p) ++ rest) None =
    Some (Z.pos p).
Proof.
  intros Hs.
  assert (Hv : uint_acc (Pos.to_uint p) 0 = Z.pos p)
    by (rewrite uint_acc_zero, Unsigned.of_to; reflexivity).
  pose proof (Unsigned.to_uint_nonnil p) as Hn.
  destruct (Pos.to_uint p) as [|l|l|l|l|l|l|l|l|l|l]; [contradiction|..];
    cbn [NilEmpty.string_of_uint append Guards.digits];
    cbn [uint_acc] in Hv;
    (match goal with
     | |- context [Guards.digit ?c] =>
         let v := eval vm_compute in (Guards.digit c) in
         change (Guards.digit c) with v
     end);
    cbv iota; rewrite digits_uint, digits_stops by exact Hs;
    f_equal; exact Hv.
Qed.

Lemma shown_positive (p : positive) :
  exists c s, NilEmpty.string_of_uint (Pos.to_uint p) = String c s /\
              Guards.digit c <> None.
Proof.
  pose proof (Unsigned.to_uint_nonnil p) as Hn.
  destruct (Pos.to_uint p); [contradiction|..]; simpl;
    eexists _, _; (split; [reflexivity|]); discriminate.
Qed.

Lemma trim_digit (c : ascii) (s : string) :
  Guards.digit c <> None -> Guards.trim_left (String c s) = String c s.
Proof.
  intros H. simpl.
  destruct (Guards.is_space c) eqn:E; [|reflexivity].
  exfalso. apply H.
  destruct c as [[|] [|] [|] [|] [|] [|] [|] [|]]; try discriminate E;
    reflexivity.
Qed.

Lemma unsigned_digit (c : ascii) (s : string) (k : string -> option Z) :
  Guards.digit c <> None ->
  match String c s with
  | String "-" s' => option_map Z.opp (k s')
  | String "+" s' => k s'
  | s' => k s'
  end = k (String c s).
Proof.
  intros H.
  destruct c as [[|] [|] [|] [|] [|] [|] [|] [|]]; try reflexivity;
    exfalso; apply H; reflexivity.
Qed.

Lemma denoted_shown (z : Z) (rest : string) :
  stops rest ->
  Guards.denoted (num_to_string z ++ rest) = Some z.
Proof.
  intros Hs. unfold Guards.denoted, num_to_string.
  destruct z as [|p|p]; cbn [Z.to_int NilZero.string_of_int].
  - simpl. now rewrite digits_stops.
  - assert (Hz : NilZero.string_of_uint (Pos.to_uint p) =
                 NilEmpty.string_of_uint (Pos.to_uint p)).
    { pose proof (Unsigned.to_uint_nonnil p).
      now destruct (Pos.to_uint p). }
    rewrite Hz.
    destruct (shown_positive p) as (c & s & E & Hd).
    pose proof (digits_positive p rest Hs) as Hp.
    rewrite E in *. cbn [append] in *.
    rewrite trim_digit by exact Hd.
    rewrite (unsigned_digit c (s ++ rest) (fun x => Guards.digits x None) Hd).
    exact Hp.
  - assert (Hz : NilZero.string_of_uint (Pos.to_uint p) =
                 NilEmpty.string_of_uint (Pos.to_uint p)).
    { pose proof (Unsigned.to_uint_nonnil p).
      now destruct (Pos.to_uint p). }
    rewrite Hz. cbn [append].
    change (Guards.trim_left (String "-" ?x)) with (String "-" x).
    cbv iota.
    change (option_map Z.opp
              (Guards.digits
                 (NilEmpty.string_of_uint (Pos.to_uint p) ++ rest) None) =
            Some (Z.neg p)).
    now rewrite (digits_positive p rest Hs).
Qed.

(** An integral number written out and read back, whatever follows the
    digits: [parseInt] yields its double. *)
Lemma parseInt_shown (z : Z) (rest : string) :
  stops rest ->
  Guards.parseInt (Str (num_to_string z ++ rest)) = Guards.to_double z.
Proof.
  intros Hs. unfold Guards.parseInt. cbn [to_string].
  now rewrite (denoted_shown z rest Hs).
Qed.

Lemma to_double_exact (z : Z) :
  (Z.abs z <= 2 ^ 53)%Z -> Guards.to_double z = Some z.
Proof.
  intros H. unfold Guards.to_double.
  destruct (Z.ltb_spec (Z.abs z) (2 ^ 53)) as [Hlt|Hge]; [reflexivity|].
  assert (Ha : Z.abs z = (2 ^ 53)%Z) by lia.
  rewrite Ha. destruct (Z.abs_eq_or_opp z) as [E|E]; rewrite E in Ha.
  - subst z. reflexivity.
  - assert (Hz : z = (- 2 ^ 53)%Z) by lia. subst z. reflexivity.
Qed.

(** Past [2^53] the digits are rounded: an odd neighbour of [2^53] reads
    as [2^53]. *)
Example parseInt_rounds :
  Guards.parseInt (Str "9007199254740993") = Some 9007199254740992%Z.
Proof. reflexivity. Qed.

(** Rounding never brings a large integer below [2^53]. *)
Lemma to_double_large (n m : Z) :
  (2 ^ 53 <= Z.abs n)%Z -> Guards.to_double n = Some m ->
  (2 ^ 53 <= Z.abs m)%Z.
Proof.
  intros Hn. unfold Guards.to_double.
  destruct (Z.ltb_spec (Z.abs n) (2 ^ 53)) as [Hlt|_]; [lia|].
  set (a := Z.abs n) in *.
  set (e := (Z.log2 a - 52)%Z).
  assert (Hpos : (0 < a)%Z) by (change (2 ^ 53)%Z with 9007199254740992%Z in Hn; lia).
  assert (Hlog : (53 <= Z.log2 a)%Z).
  { rewrite <- (Z.log2_pow2 53) by lia. now apply Z.log2_le_mono. }
  assert (He : (1 <= e)%Z) by (unfold e; lia).
  assert (Hpe : (2 <= 2 ^ e)%Z).
  { change 2%Z with (2 ^ 1)%Z at 1. apply Z.pow_le_mono_r; lia. }
  assert (Hq : (2 ^ 52 <= a / 2 ^ e)%Z).
  { apply Z.div_le_lower_bound; [lia|].
    rewrite <- Z.pow_add_r by lia.
    replace (e + 52)%Z with (Z.log2 a) by (unfold e; lia).
    now apply Z.log2_spec. }
  set (q := (a / 2 ^ e)%Z) in *.
  match goal with
  | |- context [if ?c then (q + 1)%Z else q] =>
      set (q' := if c then (q + 1)%Z else q);
      assert (Hq' : (2 ^ 52 <= q')%Z) by (unfold q'; destruct c; lia)
  end.
  destruct (q' * 2 ^ e <? 2 ^ 1024)%Z; [|discriminate].
  intros [= <-].
  assert (Hs : Z.abs (Z.sgn n) = 1%Z).
  { unfold a in Hpos. destruct n; [discriminate Hpos|reflexivity..]. }
  rewrite Z.abs_mul, Hs, Z.mul_1_l, Z.abs_eq by nia.
  change (2 ^ 53)%Z with (2 ^ 52 * 2)%Z. nia.
Qed.

(** X2. [checkUserMatches] lets a request through when the user id in the
    token is, as a number, what [Number.parseInt] reads off the [userID]
    path parameter, and otherwise leaves the decision to [checkAdmin], which
    lets through the role that is the number 1 and answers everyone else
    Forbidden.  So a user addressing their own id passes, also when the
    path goes on after the digits, for ids up to [2^53] in size, where
    doubles are exact; a user below that size addressing any other integer
    passes only as administrator, and so does one whose token holds the
    user id as a string, which matches no path. *)
Theorem checkUserMatches_guard (req : request) (u ps : object) (w : world) :
  user req = Obj u -> params req = Obj ps ->
  let own := Guards.equals_number (get u "userID")
               (Guards.parseInt (get ps "userID")) in
  let admin := strict_eq (get u "roleID") (Num 1) in
  let forbidden :=
    Next (Some (HttpError Http.Forbidden (Str "Must be an administrator"))) in
  Guards.checkUserMatches req w =
    (Resolved tt, say w [if own || admin then Next None else forbidden]) /\
  Guards.checkAdmin req w =
    (Resolved tt, say w [if admin then Next None else forbidden]) /\
  (forall z rest,
     get u "userID" = Num z -> (Z.abs z <= 2 ^ 53)%Z -> stops rest ->
     get ps "userID" = Str (num_to_string z ++ rest) -> own = true) /\
  (forall z n rest,
     get u "userID" = Num z -> (Z.abs z < 2 ^ 53)%Z -> stops rest ->
     get ps "userID" = Str (num_to_string n ++ rest) -> n <> z ->
     own = false) /\
  (forall s, get u "userID" = Str s -> own = false) /\
  (admin = true <-> get u "roleID" = Num 1).
Proof.
  intros Hu Hp own admin forbidden.
  assert (Ha : Guards.checkAdmin req w =
               (Resolved tt, say w [if admin then Next None else forbidden])).
  { unfold Guards.checkAdmin. rewrite Hu, member_Obj.
    rewrite (bind_resolved _ _ w w (get u "roleID")) by reflexivity.
    unfold Guards.adminRoleID. subst admin.
    now destruct (strict_eq (get u "roleID") (Num 1)). }
  split; [|split; [exact Ha|split; [|split; [|split]]]].
  - unfold Guards.checkUserMatches. rewrite Hu, Hp, !member_Obj.
    rewrite (bind_resolved _ _ w w (get u "userID")) by reflexivity.
    rewrite (bind_resolved _ _ w w (get ps "userID")) by reflexivity.
    fold own. destruct own; [reflexivity|exact Ha].
  - intros z rest Hz Hsafe Hs Hps. subst own.
    rewrite Hz, Hps, (parseInt_shown z rest Hs), (to_double_exact z Hsafe).
    simpl. apply Z.eqb_refl.
  - intros z n rest Hz Hsafe Hs Hps Hn. subst own.
    rewrite Hz, Hps, (parseInt_shown n rest Hs).
    destruct (Guards.to_double n) as [m|] eqn:E; [|reflexivity].
    simpl. apply Z.eqb_neq. intros ->.
    destruct (Z.lt_ge_cases (Z.abs n) (2 ^ 53)) as [Hlt|Hge].
    + rewrite to_double_exact in E by lia. congruence.
    + pose proof (to_double_large n m Hge E). lia.
  - intros s Hs. subst own. rewrite Hs.
    now destruct (Guards.parseInt (get ps "userID")).
  - subst admin. split.
    + apply strict_eq_eq.
    + now intros ->.
Qed.

Lemma checkUserMatches_guard_witness :
  Guards.checkUserMatches
    (Request (Obj [("userID", Str "7th")]) Undefined
       (Obj [("userID", Num 7); ("roleID", Num 2)])) sample_world =
    (Resolved tt, say sample_world [Next None]) /\
  Guards.checkUserMatches
    (Request (Obj [("userID", Str "8")]) Undefined
       (Obj [("userID", Num 7); ("roleID", Num 2)])) sample_world =
    (Resolved tt,
     say sample_world
       [Next (Some (HttpError Http.Forbidden (Str "Must be an administrator")))]).
Proof.
  split.
  - exact (proj1 (checkUserMatches_guard
                    (Request (Obj [("userID", Str "7th")]) Undefined
                       (Obj [("userID", Num 7); ("roleID", Num 2)]))
                    [("userID", Num 7); ("roleID", Num 2)]
                    [("userID", Str "7th")] sample_world
                    eq_refl eq_refl)).
  - exact (proj1 (checkUserMatches_guard
                    (Request (Obj [("userID", Str "8")]) Undefined
                       (Obj [("userID", Num 7); ("roleID", Num 2)]))
                    [("userID", Num 7); ("roleID", Num 2)]
                    [("userID", Str "8")] sample_world
                    eq_refl eq_refl)).
Defined.

End GuardFacts.

Module ClassifyFacts.

Import Js JsFacts PromiseFacts.

Lemma emits_quiet {A} (P : list event -> Prop) (p : M A) :
  quiet p -> P [] -> emits P p.
Proof.
  intros Hq HP w. exists []. rewrite app_nil_r. split; [apply Hq|exact HP].
Qed.

Lemma emits_emit (P : list event -> Prop) (ev : event) :
  P [ev] -> emits P (emit ev).
Proof. intros HP w. exists [ev]. split; [reflexivity|exact HP]. Qed.

Lemma emits_bind {A B} (P : list event -> Prop) (p : M A) (k : A -> M B) :
  (forall a b, P a -> P b -> P (a ++ b)) ->
  emits P p -> (forall a, emits P (k a)) -> emits P (bind p k).
Proof.
  intros Hc Hp Hk w. unfold bind.
  destruct (Hp w) as (evs1 & Ho1 & HP1).
  destruct (p w) as [[a|e] w']; simpl in *.
  - destruct (Hk a w') as (evs2 & Ho2 & HP2).
    exists (evs1 ++ evs2). rewrite Ho2, Ho1, app_assoc. auto.
  - eauto.
Qed.

Lemma emits_bind_quiet {A B} (P : list event -> Prop) (p : M A) (k : A -> M B) :
  quiet p -> P [] -> (forall a, emits P (k a)) -> emits P (bind p k).
Proof.
  intros Hq HP Hk w. unfold bind. specialize (Hq w).
  destruct (p w) as [[a|e] w']; simpl in *.
  - destruct (Hk a w') as (evs & Ho & HPe).
    exists evs. rewrite Ho, Hq. auto.
  - exists []. rewrite app_nil_r. auto.
Qed.

Lemma peaceful_app (a b : list event) :
  forallb peaceful a = true -> forallb peaceful b = true ->
  forallb peaceful (a ++ b) = true.
Proof. intros Ha Hb. now rewrite forallb_app, Ha, Hb. Qed.

Section Closing.
Context {formatter : Formatter}.

(** The [.catch(err => handleError(err, messages, next, req))] that closes
    every handler. *)
Lemma emits_catch (messages : option object) (p : M unit) :
  emits (fun evs => forallb peaceful evs = true) p ->
  emits (classified messages)
        (catch p (fun err => Endpoint.handleError err messages)).
Proof.
  intros Hp w. unfold catch.
  destruct (Hp w) as (pre & Ho & HP).
  destruct (p w) as [[[]|e] w']; simpl in *.
  - exists pre. split; [exact Ho|]. now left.
  - rewrite EndpointFacts.handleError_run.
    destruct (Endpoint.chooseError e messages) as [chosen|thrown] eqn:Ec.
    + exists (pre ++ [LogError e; Next (Some chosen)]). split.
      * simpl. rewrite Ho, <- !app_assoc. reflexivity.
      * right. exists pre, e. now rewrite Ec.
    + exists (pre ++ [LogError e]). split.
      * simpl. rewrite Ho, <- !app_assoc. reflexivity.
      * right. exists pre, e. now rewrite Ec.
Qed.

End Closing.

Ltac peace :=
  repeat first
    [ apply emits_emit; reflexivity
    | apply emits_bind_quiet; [solve [quiet] | reflexivity | intros ?]
    | apply emits_bind; [exact peaceful_app | | intros ?]
    | match goal with
      | |- emits _ (if ?x then _ else _) => destruct x
      end ].

Section Handlers.
Context {dialect : Db.Dialect} {paginate : Paginate} {formatter : Formatter}.

Lemma quiet_getAll t org m sortBy search :
  quiet (Db.getAll t org m sortBy search).
Proof. unfold Db.getAll. quiet. Qed.

Lemma quiet_create t c payload m m' : quiet (Db.create t c payload m m').
Proof. unfold Db.create, Db.insert, Db.get. quiet. Qed.

Lemma quiet_update t c v payload org m m' :
  quiet (Db.update t c v payload org m m').
Proof. unfold Db.update. quiet. Qed.

Lemma quiet_delete t c v org m : quiet (Db.delete t c v org m).
Proof. unfold Db.delete. quiet. Qed.

Lemma quiet_tenant o req : quiet (Endpoint.tenant o req).
Proof. unfold Endpoint.tenant. quiet. Qed.

Lemma quiet_backfill o req : quiet (Endpoint.backfill o req).
Proof. unfold Endpoint.backfill. quiet. Qed.

#[local] Hint Resolve quiet_getAll quiet_create quiet_update quiet_delete
  quiet_tenant quiet_backfill AuthFacts.quiet_get : quiet.

(** X1. Whatever the store does, an endpoint handler hands [next] no error
    but one that [chooseError] returned, and only after logging the error
    it was chosen for: the events of a call are peaceful ones, closed,
    when something failed inside the chain, by that log entry and then by
    the chosen error, or by the log entry alone when choosing the error
    threw. *)
Theorem errors_classified (t c : string) (cv : value) (o : Endpoint.options)
    (req : request) :
  emits (classified (Endpoint.messages o)) (Endpoint.getAll t o req) /\
  emits (classified (Endpoint.messages o)) (Endpoint.get t c o req) /\
  emits (classified (Endpoint.messages o)) (Endpoint.create t cv o req) /\
  emits (classified (Endpoint.messages o)) (Endpoint.update t c o req) /\
  emits (classified (Endpoint.messages o)) (Endpoint.delete t c o req).
Proof.
  assert (Hnil : classified (Endpoint.messages o) []) by now left.
  repeat split.
  - unfold Endpoint.getAll.
    apply emits_bind_quiet; [quiet|exact Hnil|intros s].
    apply emits_bind_quiet; [quiet|exact Hnil|intros org].
    apply emits_catch. unfold addLinks, res_send, next. peace.
  - unfold Endpoint.get.
    apply emits_bind_quiet; [quiet|exact Hnil|intros v].
    apply emits_bind_quiet; [quiet|exact Hnil|intros org].
    apply emits_catch. unfold res_send, next. peace.
  - unfold Endpoint.create.
    apply emits_bind_quiet; [quiet|exact Hnil|intros req'].
    apply emits_catch. unfold res_send, next. peace.
  - unfold Endpoint.update.
    apply emits_bind_quiet; [quiet|exact Hnil|intros v].
    apply emits_bind_quiet; [quiet|exact Hnil|intros org].
    apply emits_catch. unfold res_send, next. peace.
  - unfold Endpoint.delete.
    apply emits_bind_quiet; [quiet|exact Hnil|intros v].
    apply emits_bind_quiet; [quiet|exact Hnil|intros org].
    apply emits_catch. unfold res_send, res_send_code, next. peace.
Qed.

End Handlers.

End ClassifyFacts.

Module ResponseFacts.

Import Js JsFacts PromiseFacts.

Lemma sortIndexed_length (results : list object) : forall i,
  length (Endpoint.sortIndexed i results) = length results.
Proof. induction results as [|r rs IH]; intros i; simpl; auto. Qed.

Lemma sortIndexed_nth (results : list object) : forall (i : Z) (n : nat) (r : object),
  nth_error results n = Some r ->
  nth_error (Endpoint.sortIndexed i results) n =
    Some (set r "sortIndex" (Num (i + Z.of_nat n))).
Proof.
  induction results as [|r0 rs IH]; intros i [|n] r H; simpl in *;
    try discriminate.
  - injection H as <-. now rewrite Z.add_0_r.
  - rewrite (IH (i + 1)%Z n r H). do 3 f_equal. lia.
Qed.

(** X3. The results of [getAll] are the gateway's rows in the gateway's
    order, each with its position, counted from 0, under [sortIndex]: a
    column of that name is overwritten, every other column is as the
    gateway returned it. *)
Theorem sortIndexed_positions (results : list object) :
  length (Endpoint.sortIndexed 0 results) = length results /\
  forall (n : nat) (r : object),
    nth_error results n = Some r ->
    exists r',
      nth_error (Endpoint.sortIndexed 0 results) n = Some r' /\
      get r' "sortIndex" = Num (Z.of_nat n) /\
      forall k, k <> "sortIndex" -> get r' k = get r k.
Proof.
  split; [apply sortIndexed_length|].
  intros n r H. eexists. split; [exact (sortIndexed_nth results 0 n r H)|].
  split.
  - now rewrite get_set_same.
  - intros k Hk. apply get_set_other. congruence.
Qed.

Lemma sortIndexed_positions_witness :
  exists r',
    nth_error (Endpoint.sortIndexed 0
                 [testRow; [("name", Str "test3"); ("sortIndex", Str "last")]]) 1 =
      Some r' /\
    get r' "sortIndex" = Num 1 /\ get r' "name" = Str "test3".
Proof.
  destruct (proj2 (sortIndexed_positions
                     [testRow; [("name", Str "test3"); ("sortIndex", Str "last")]])
              1%nat [("name", Str "test3"); ("sortIndex", Str "last")] eq_refl)
    as (r' & E & Hi & Hk).
  exists r'. split; [exact E|]. split; [exact Hi|].
  rewrite (Hk "name"); [reflexivity|discriminate].
Defined.

(** X4. For a type that is not the name of a member of
    [Object.prototype], as those that the handlers ask for are not,
    [chooseMessage] never comes back empty-handed: the custom message of
    the type when it is a truthy one, else what no custom messages would
    give, which for a type outside the six default ones is the default
    message, so that the result is always truthy. *)
Theorem chooseMessage_fallback (type : string) (messages : option object) :
  inherited type = false ->
  truthy (Endpoint.chooseMessage type messages) = true /\
  (truthy (custom messages type) = true ->
   Endpoint.chooseMessage type messages = custom messages type) /\
  (truthy (custom messages type) = false ->
   Endpoint.chooseMessage type messages = Endpoint.chooseMessage type None) /\
  (~ In type (keys Endpoint.defaultMessages) ->
   Endpoint.chooseMessage type None = Str "Something went wrong").
Proof.
  intros _. unfold Endpoint.chooseMessage, custom.
  set (m := match messages with Some m => m | None => [] end).
  assert (Hd : truthy (or_else (get Endpoint.defaultMessages type)
                         (get Endpoint.defaultMessages "default")) = true).
  { unfold or_else.
    destruct (truthy (get Endpoint.defaultMessages type)) eqn:E; auto. }
  split; [|split; [|split]].
  - unfold or_else in *.
    destruct (truthy (get m type)) eqn:E; cbv iota; [now rewrite E|exact Hd].
  - intros H. unfold or_else. rewrite H. cbv iota. now rewrite H.
  - intros H. unfold or_else. rewrite H. reflexivity.
  - intros H. simpl get at 1.
    rewrite (DbFacts.get_absent Endpoint.defaultMessages type); [reflexivity|].
    destruct (includes (keys Endpoint.defaultMessages) type) eqn:E; auto.
    apply includes_In in E. contradiction.
Qed.

Lemma chooseMessage_fallback_witness :
  Endpoint.chooseMessage "delete" (Some [("delete", Str "")]) = Str "Deleted" /\
  Endpoint.chooseMessage "archive" None = Str "Something went wrong".
Proof.
  split.
  - exact (proj1 (proj2 (proj2 (chooseMessage_fallback "delete"
                                  (Some [("delete", Str "")]) eq_refl)))
             eq_refl).
  - apply (proj2 (proj2 (proj2 (chooseMessage_fallback "archive" None
                                  eq_refl)))).
    simpl. intros H. repeat (destruct H as [H|H]; [discriminate H|]). exact H.
Defined.

Section Unattached.
Context {dialect : Db.Dialect} {paginate : Paginate} {formatter : Formatter}.

(** X5. With tenant scoping on and no user attached to the request,
    [getAll], [get], [update] and [delete] throw on reading the user's
    organization before anything is asked of the store: nothing is sent,
    nothing logged and [next] is not called.  [create] alone tests for the
    user, and then stores the body as it was sent; it settles without
    throwing when the route's messages are plain texts. *)
Theorem scoped_handlers_need_user (t c : string) (cv : value)
    (o : Endpoint.options) (req : request) (ps b : object) (w : world) :
  Endpoint.hasOrganizationID o = true ->
  user req = Undefined -> params req = Obj ps -> body req = Obj b ->
  let thrown := TypeError "Cannot read property 'organizationID' of undefined" in
  Endpoint.getAll t o req w = (Rejected thrown, w) /\
  Endpoint.get t c o req w = (Rejected thrown, w) /\
  Endpoint.update t c o req w = (Rejected thrown, w) /\
  Endpoint.delete t c o req w = (Rejected thrown, w) /\
  (faults w = [] ->
   exists outcome w',
     Endpoint.create t cv o req w = (outcome, w') /\
     db w' = Db.set_table (db w) t
               (Db.table (db w) t ++
                [fst (Db.stored t (Db.table (db w) t) b)]) /\
     (formal (Endpoint.messages o) -> outcome = Resolved tt)).
Proof.
  intros Ho Hu Hp Hb thrown.
  assert (Ht : Endpoint.tenant o req w = (Rejected thrown, w))
    by (unfold Endpoint.tenant; rewrite Ho, Hu; reflexivity).
  split; [|split; [|split; [|split]]].
  - unfold Endpoint.getAll. rewrite Hp, member_Obj.
    rewrite (bind_resolved _ _ w w (get ps "search")) by reflexivity.
    now apply bind_rejected.
  - unfold Endpoint.get. rewrite Hp, member_Obj.
    rewrite (bind_resolved _ _ w w (get ps c)) by reflexivity.
    now apply bind_rejected.
  - unfold Endpoint.update. rewrite Hp, member_Obj.
    rewrite (bind_resolved _ _ w w (get ps c)) by reflexivity.
    now apply bind_rejected.
  - unfold Endpoint.delete. rewrite Hp, member_Obj.
    rewrite (bind_resolved _ _ w w (get ps c)) by reflexivity.
    now apply bind_rejected.
  - intros Hf. apply (EndpointFacts.create_stores t cv o req req b w); auto.
    unfold Endpoint.backfill. rewrite Ho, Hb, Hu, member_Obj.
    rewrite (bind_resolved _ _ w w (get b "organizationID")) by reflexivity.
    now rewrite andb_false_r.
Qed.

End Unattached.

Lemma scoped_handlers_need_user_witness :
  Endpoint.get (dialect := plain_dialect) (formatter := plain_formatter)
    "kit" "kitID" Endpoint.default_options
    (Request (Obj [("kitID", Num 1)]) (Obj []) Undefined) sample_world =
    (Rejected (TypeError "Cannot read property 'organizationID' of undefined"),
     sample_world).
Proof.
  exact (proj1 (proj2 (scoped_handlers_need_user
                         (dialect := plain_dialect) (formatter := plain_formatter) (paginate := offset_links)
                         "kit" "kitID" (Str "kitID") Endpoint.default_options
                         (Request (Obj [("kitID", Num 1)]) (Obj []) Undefined)
                         [("kitID", Num 1)] [] sample_world
                         eq_refl eq_refl eq_refl eq_refl))).
Defined.

End ResponseFacts.

Module SessionFacts.

Import Js JsFacts PromiseFacts.

Lemma strict_eq_refl_Str (s : string) : strict_eq (Str s) (Str s) = true.
Proof. simpl. apply String.eqb_refl. Qed.

Lemma strict_eq_differs (a b : value) : a <> b -> strict_eq b a = false.
Proof.
  intros H. destruct (strict_eq b a) eqn:E; auto.
  apply strict_eq_eq in E. congruence.
Qed.

Section Sessions.
Context {dialect : Db.Dialect} {crypto : Auth.Crypto}.

Lemma compare_calm (p h : string) (w : world) :
  faults w = [] ->
  Auth.compare (Str p) (Str h) w = (Resolved (Auth.bcrypt_compare p h), w).
Proof.
  intros Hf. unfold Auth.compare.
  now rewrite (bind_resolved _ _ w w tt) by now apply external_calm.
Qed.

Lemma makeToken_calm (userID organizationID roleID : value) (w : world) :
  faults w = [] ->
  Auth.makeToken userID organizationID roleID w =
    (Resolved (Str (Auth.jwt_sign
                      (Obj [("userID", userID);
                            ("organizationID", organizationID);
                            ("roleID", roleID)]) "15m")), w).
Proof.
  intros Hf. unfold Auth.makeToken.
  now rewrite (bind_resolved _ _ w w tt) by now apply external_calm.
Qed.

(** A login that goes through, step by step. *)
Lemma authenticate_ok (req : request) (b u : object) (rest : list object)
    (p h hex : string) (more : list string) (w : world) :
  body req = Obj b ->
  truthy (and_then (get b "email") (get b "password")) = true ->
  filter (fun r => Db.equal (get r "email") (get b "email"))
         (Db.table (db w) "user") = u :: rest ->
  get b "password" = Str p -> get u "password" = Str h ->
  Auth.bcrypt_compare p h = true ->
  faults w = [] -> entropy w = hex :: more ->
  let refreshToken := add (get u "userID") (Str hex) in
  let token :=
    Str (Auth.jwt_sign
           (Obj [("userID", get u "userID");
                 ("organizationID", get u "organizationID");
                 ("roleID", get u "roleID")]) "15m") in
  let existing := Db.table (db w) "refreshToken" in
  let row := fst (Db.stored "refreshToken" existing
                    [("userID", get u "userID");
                     ("refreshToken", refreshToken)]) in
  Auth.authenticate req w =
    (Resolved tt,
     say (World (Db.set_table (db w) "refreshToken" (existing ++ [row]))
            (faults w) more (out w))
       [Send 200 (Obj [("id", get u "userID");
                       ("refreshToken", refreshToken);
                       ("token", token);
                       ("message", Str "Authentication successful")])]).
Proof.
  intros Hb Ht Hu Hp Hh Hc Hf He refreshToken token existing row.
  unfold Auth.authenticate. rewrite Hb, !member_Obj.
  rewrite (bind_resolved _ _ w w (get b "email")) by reflexivity.
  rewrite (bind_resolved _ _ w w (get b "password")) by reflexivity.
  rewrite Ht, Hp. rewrite <- AuthFacts.rows_user_by_email in Hu.
  apply catch_resolved.
  assert (E0 : Db.get "user" (Str "email") (get b "email") Undefined None w =
               (Resolved (Obj u), w)).
  { unfold Db.get. fold (user_by_email (get b "email")).
    rewrite (bind_resolved _ _ w w tt) by now apply external_calm.
    unfold bind, get_db. now rewrite Hu. }
  rewrite (bind_resolved _ _ _ _ _ E0). rewrite member_Obj, Hh.
  rewrite (bind_resolved _ _ w w (Str h)) by reflexivity.
  rewrite (bind_resolved _ _ _ _ _ (compare_calm p h w Hf)), Hc.
  rewrite (bind_resolved _ _ _ _ _ (makeToken_calm _ _ _ w Hf)).
  set (w4 := World (db w) (faults w) more (out w)).
  assert (E3 : Auth.randomHex w = (Resolved hex, w4))
    by (unfold Auth.randomHex; now rewrite He).
  rewrite (bind_resolved _ _ _ _ _ E3).
  assert (Hf4 : faults w4 = []) by exact Hf.
  rewrite (bind_resolved _ _ _ _ _
             (DbFacts.insert_calm "refreshToken" _ w4 Hf4)).
  reflexivity.
Qed.

(** X6. A login with the password that bcrypt accepts for the first row of
    that email answers 200 with the user's id, an access token signed over
    exactly that row's [userID], [organizationID] and [roleID] with an
    expiry of fifteen minutes, and a refresh token that is the user id
    followed by the random hex string; one refresh-token row, holding that
    user id and that token, is appended to the store. *)
Theorem authenticate_issues (req : request) (b u : object) (rest : list object)
    (p h hex : string) (more : list string) (w : world) :
  body req = Obj b ->
  truthy (and_then (get b "email") (get b "password")) = true ->
  filter (fun r => Db.equal (get r "email") (get b "email"))
         (Db.table (db w) "user") = u :: rest ->
  get b "password" = Str p -> get u "password" = Str h ->
  Auth.bcrypt_compare p h = true ->
  faults w = [] -> entropy w = hex :: more ->
  let refreshToken := Str (to_string (get u "userID") ++ hex) in
  let token :=
    Str (Auth.jwt_sign
           (Obj [("userID", get u "userID");
                 ("organizationID", get u "organizationID");
                 ("roleID", get u "roleID")]) "15m") in
  exists w' row,
    Auth.authenticate req w = (Resolved tt, w') /\
    out w' = out w ++
             [Send 200 (Obj [("id", get u "userID");
                             ("refreshToken", refreshToken);
                             ("token", token);
                             ("message", Str "Authentication successful")])] /\
    Db.table (db w') "refreshToken" =
      Db.table (db w) "refreshToken" ++ [row] /\
    get row "userID" = get u "userID" /\
    get row "refreshToken" = refreshToken /\
    Db.table (db w') "user" = Db.table (db w) "user".
Proof.
  intros Hb Ht Hu Hp Hh Hc Hf He refreshToken token.
  pose proof (authenticate_ok req b u rest p h hex more w
                Hb Ht Hu Hp Hh Hc Hf He) as E.
  cbv zeta in E.
  assert (Ha : add (get u "userID") (Str hex) = refreshToken).
  { unfold add, refreshToken. simpl to_string.
    destruct (get u "userID"); reflexivity. }
  rewrite Ha in E.
  eexists _, _. split; [exact E|].
  split; [reflexivity|]. split; [apply DbFacts.table_set_table|].
  split; [now rewrite DbFacts.stored_get|]. split; [now rewrite DbFacts.stored_get|].
  now apply DbFacts.table_set_table_other.
Qed.

Lemma num_to_string_nonempty (z : Z) (rest : string) :
  truthy (Str (num_to_string z ++ rest)) = true.
Proof.
  pose proof (GuardFacts.denoted_shown z "" I) as H.
  destruct (num_to_string z) as [|c s]; [discriminate H|reflexivity].
Qed.

(** X7. A login and the refresh that follows it.  The refresh token a
    login issues joins the user's stored tokens at the end.  Presented
    back, it is honoured when the user had no token stored before, with an
    access token signed over the user's row; when an earlier, different
    token is stored it is refused with Unauthorized, the earlier token
    being the one [refresh] compares against. *)
Theorem login_then_refresh (req req2 : request) (b b2 u u2 : object)
    (rest rest2 : list object) (p h hex : string) (more : list string)
    (z : Z) (w : world) :
  body req = Obj b ->
  truthy (and_then (get b "email") (get b "password")) = true ->
  filter (fun r => Db.equal (get r "email") (get b "email"))
         (Db.table (db w) "user") = u :: rest ->
  get b "password" = Str p -> get u "password" = Str h ->
  Auth.bcrypt_compare p h = true ->
  faults w = [] -> entropy w = hex :: more ->
  get u "userID" = Num z -> z <> 0%Z ->
  filter (fun o => Db.equal (get o "userID") (Num z))
         (Db.table (db w) "user") = u2 :: rest2 ->
  let issued := Str (num_to_string z ++ hex) in
  body req2 = Obj b2 ->
  get b2 "refreshToken" = issued -> get b2 "userID" = Num z ->
  let w' := snd (Auth.authenticate req w) in
  stored_tokens (db w') (Num z) = stored_tokens (db w) (Num z) ++ [issued] /\
  (stored_tokens (db w) (Num z) = [] ->
   Auth.refresh req2 w' =
     (Resolved tt,
      say w' [Send 200
                (Obj [("token",
                       Str (Auth.jwt_sign
                              (Obj [("userID", get u2 "userID");
                                    ("organizationID", get u2 "organizationID");
                                    ("roleID", get u2 "roleID")]) "15m"));
                      ("message", Str "Token refreshed successfully")])])) /\
  (forall first others,
     stored_tokens (db w) (Num z) = first :: others -> first <> issued ->
     Auth.refresh req2 w' = (Resolved tt, say w' [Next (Some invalid_token)])).
Proof.
  intros Hb Ht Hu Hp Hh Hc Hf He Hz Hnz Hu2 issued Hb2 Hr2 Hi2 w'.
  pose proof (authenticate_ok req b u rest p h hex more w
                Hb Ht Hu Hp Hh Hc Hf He) as E.
  cbv zeta in E. rewrite Hz in E.
  change (add (Num z) (Str hex)) with issued in E.
  subst w'. rewrite E. cbn [snd].
  set (row := fst (Db.stored "refreshToken" _ _)) in *.
  set (w1 := say _ _).
  assert (Hrow : get row "userID" = Num z /\ get row "refreshToken" = issued)
    by (subst row; split; now rewrite DbFacts.stored_get).
  destruct Hrow as [Hru Hrt].
  assert (Hst : stored_tokens (db w1) (Num z) =
                stored_tokens (db w) (Num z) ++ [issued]).
  { unfold stored_tokens. subst w1. cbn [db say].
    rewrite DbFacts.table_set_table, filter_app, map_app. f_equal.
    cbn [filter]. rewrite Hru, Db.equal_num.
    cbn [map]. now rewrite Hrt. }
  assert (Hf1 : faults w1 = []) by exact Hf.
  assert (Ht2 : truthy (and_then (get b2 "refreshToken") (get b2 "userID")) = true).
  { rewrite truthy_and, Hr2, Hi2. unfold issued.
    rewrite num_to_string_nonempty. cbn [truthy andb].
    destruct (Z.eqb_spec z 0); [contradiction|reflexivity]. }
  assert (Hus : Db.table (db w1) "user" = Db.table (db w) "user")
    by (subst w1; cbn [db say]; now apply DbFacts.table_set_table_other).
  split; [exact Hst|]. split.
  - intros Hnone.
    apply (AuthFacts.refresh_match req2 b2 u2 rest2 w1 Hb2 Ht2 Hf1).
    + rewrite Hr2, Hi2, Hst, Hnone. apply strict_eq_refl_Str.
    + now rewrite Hi2, Hus.
  - intros first others Hsome Hne.
    apply (AuthFacts.refresh_mismatch req2 b2 w1 Hb2 Ht2 Hf1).
    rewrite Hr2, Hi2, Hst, Hsome. cbn [app hd].
    now apply strict_eq_differs.
Qed.

(** X8. [refresh] has no rejection handler.  When it resolves it has
    answered with exactly one of its three answers; when the store or the
    signer fails, or the token matches and the user row is gone, the chain
    is rejected and nothing at all is answered: no response, no call of
    [next]. *)
Theorem refresh_unanswered (req : request) :
  answers
    (fun evs =>
       evs = [Next (Some (HttpError Http.BadRequest
                            (Str "Request must contain refresh token and user ID")))] \/
       evs = [Next (Some (HttpError Http.Unauthorized
                            (Str "Refresh token is invalid")))] \/
       exists token,
         evs = [Send 200 (Obj [("token", token);
                               ("message", Str "Token refreshed successfully")])])
    (Auth.refresh req) /\
  (forall b w e fs,
     body req = Obj b ->
     truthy (and_then (get b "refreshToken") (get b "userID")) = true ->
     faults w = Some e :: fs ->
     Auth.refresh req w = (Rejected e, World (db w) fs (entropy w) (out w))) /\
  (forall b w,
     body req = Obj b ->
     truthy (and_then (get b "refreshToken") (get b "userID")) = true ->
     faults w = [] ->
     strict_eq (get b "refreshToken")
               (hd Undefined (stored_tokens (db w) (get b "userID"))) = true ->
     filter (fun o => Db.equal (get o "userID") (get b "userID"))
            (Db.table (db w) "user") = [] ->
     exists e, Auth.refresh req w = (Rejected e, w)).
Proof.
  split; [|split].
  - unfold Auth.refresh.
    apply answers_bind; [quiet|intros refreshToken].
    apply answers_bind; [quiet|intros userID].
    destruct (truthy (and_then refreshToken userID)).
    + apply answers_bind; [apply AuthFacts.quiet_first_pluck|intros found].
      destruct (strict_eq refreshToken (hd Undefined found)).
      * apply answers_bind; [apply AuthFacts.quiet_first|intros u].
        apply answers_bind; [quiet|intros userID'].
        apply answers_bind; [apply AuthFacts.quiet_makeToken|intros token].
        apply answers_emit. right. right. now exists token.
      * apply answers_emit. right. now left.
    + apply answers_emit. now left.
  - intros b w e fs Hb Ht Hf. unfold Auth.refresh. rewrite Hb, !member_Obj.
    rewrite (bind_resolved _ _ w w (get b "refreshToken")) by reflexivity.
    rewrite (bind_resolved _ _ w w (get b "userID")) by reflexivity.
    rewrite Ht. apply bind_rejected. unfold Db.first_pluck.
    apply bind_rejected. unfold external. now rewrite Hf.
  - intros b w Hb Ht Hf He Hu.
    exact (AuthFacts.refresh_orphan req b w Hb Ht Hf He Hu).
Qed.

(** X9. What [register] stores is the request body with the password
    replaced by its hash: every other field the body has, required or not,
    [roleID] included, is stored as it was sent. *)
Theorem register_stores_body (req : request) (b : object) (p : string)
    (w : world) :
  body req = Obj b ->
  (forall key, In key Auth.required -> In key (keys b)) ->
  get b "password" = Str p ->
  faults w = [] ->
  exists w' row,
    Auth.register req w = (Resolved tt, w') /\
    Db.table (db w') "user" = Db.table (db w) "user" ++ [row] /\
    get row "password" = Str (Auth.bcrypt_hash p 10) /\
    forall k, In k (keys b) -> k <> "password" -> get row k = get b k.
Proof.
  intros Hb Hk Hp Hf.
  pose proof (AuthFacts.register_ok req b p w Hb Hk Hp Hf) as E.
  cbv zeta in E.
  eexists _, _. split; [exact E|].
  split; [apply DbFacts.table_set_table|].
  assert (Hpw : includes (keys b) "password" = true)
    by (apply includes_In, Hk; simpl; tauto).
  split.
  - rewrite DbFacts.stored_get by now apply keys_set.
    apply get_set_same.
  - intros k Hin Hne.
    rewrite DbFacts.stored_get by now apply keys_set, includes_In.
    apply get_set_other. congruence.
Qed.

(** X10. The presence checks of the two token handlers are truthiness
    tests.  [authenticate] answers BadRequest for a missing field exactly
    when email or password is falsy; [refresh] answers its BadRequest when
    the refresh token or the user id is falsy, the user id 0 included.
    Either way nothing is asked of the store. *)
Theorem presence_checks (req : request) (b : object) (w : world) :
  body req = Obj b ->
  (Auth.authenticate req w =
     (Resolved tt,
      say w [Next (Some (HttpError Http.BadRequest
                           (Str "Missing email or password")))])
   <-> truthy (get b "email") && truthy (get b "password") = false) /\
  (truthy (get b "refreshToken") && truthy (get b "userID") = false ->
   Auth.refresh req w =
     (Resolved tt,
      say w [Next (Some (HttpError Http.BadRequest
                           (Str "Request must contain refresh token and user ID")))])).
Proof.
  intros Hb. split; [split|].
  - intros E.
    destruct (truthy (get b "email") && truthy (get b "password")) eqn:Ht; auto.
    rewrite <- truthy_and in Ht.
    destruct (AuthFacts.authenticate_answers req b w Hb Ht)
      as (w' & evs & E' & Ho & Hc).
    rewrite E in E'. injection E' as <-. cbn [out say] in Ho.
    apply app_inv_head in Ho. subst evs.
    destruct Hc as [Hc|(id & rt & tk & Hc)]; discriminate Hc.
  - intros Ht. rewrite <- truthy_and in Ht.
    unfold Auth.authenticate. rewrite Hb, !member_Obj.
    rewrite (bind_resolved _ _ w w (get b "email")) by reflexivity.
    rewrite (bind_resolved _ _ w w (get b "password")) by reflexivity.
    now rewrite Ht.
  - intros Ht. rewrite <- truthy_and in Ht.
    unfold Auth.refresh. rewrite Hb, !member_Obj.
    rewrite (bind_resolved _ _ w w (get b "refreshToken")) by reflexivity.
    rewrite (bind_resolved _ _ w w (get b "userID")) by reflexivity.
    now rewrite Ht.
Qed.

End Sessions.

Lemma authenticate_issues_witness :
  exists w',
    Auth.authenticate (dialect := plain_dialect) (crypto := toy_crypto)
      (login "a@b.com" "secret") sample_world = (Resolved tt, w') /\
    out w' = [Send 200 (Obj [("id", Num 1); ("refreshToken", Str "1c0ffee");
                             ("token", Str "jwt:1");
                             ("message", Str "Authentication successful")])].
Proof.
  destruct (authenticate_issues
              (dialect := plain_dialect) (crypto := toy_crypto)
              (login "a@b.com" "secret")
              [("email", Str "a@b.com"); ("password", Str "secret")]
              [("userID", Num 1); ("email", Str "a@b.com");
               ("password", Str "$2b$10$secret"); ("organizationID", Num 94);
               ("roleID", Num 2)]
              [] "secret" "$2b$10$secret" "c0ffee" ["f00d"] sample_world
              eq_refl eq_refl eq_refl eq_refl eq_refl eq_refl eq_refl eq_refl)
    as (w' & row & E & Ho & _).
  exists w'. split; [exact E|exact Ho].
Defined.

Lemma login_then_refresh_witness :
  let w' := snd (Auth.authenticate (dialect := plain_dialect)
                   (crypto := toy_crypto) (login "a@b.com" "secret")
                   sample_world) in
  Auth.refresh (dialect := plain_dialect) (crypto := toy_crypto)
    (refreshing 1 "1c0ffee") w' =
    (Resolved tt,
     say w' [Send 200 (Obj [("token", Str "jwt:1");
                            ("message", Str "Token refreshed successfully")])]).
Proof.
  exact (proj1 (proj2 (login_then_refresh
                         (dialect := plain_dialect) (crypto := toy_crypto)
                         (login "a@b.com" "secret") (refreshing 1 "1c0ffee")
                         [("email", Str "a@b.com"); ("password", Str "secret")]
                         [("refreshToken", Str "1c0ffee"); ("userID", Num 1)]
                         [("userID", Num 1); ("email", Str "a@b.com");
                          ("password", Str "$2b$10$secret");
                          ("organizationID", Num 94); ("roleID", Num 2)]
                         [("userID", Num 1); ("email", Str "a@b.com");
                          ("password", Str "$2b$10$secret");
                          ("organizationID", Num 94); ("roleID", Num 2)]
                         [] [] "secret" "$2b$10$secret" "c0ffee" ["f00d"] 1
                         sample_world
                         eq_refl eq_refl eq_refl eq_refl eq_refl eq_refl eq_refl
                         eq_refl eq_refl ltac:(discriminate) eq_refl
                         eq_refl eq_refl eq_refl)) eq_refl).
Defined.

Lemma refresh_unanswered_witness :
  Auth.refresh (dialect := plain_dialect) (crypto := toy_crypto)
    (refreshing 1 "1c0ffee") store_down =
    (Rejected (StoreError (Str "ECONNREFUSED") Undefined),
     World sample_db [] ["c0ffee"] []).
Proof.
  exact (proj1 (proj2 (refresh_unanswered
                         (dialect := plain_dialect) (crypto := toy_crypto)
                         (refreshing 1 "1c0ffee")))
           [("refreshToken", Str "1c0ffee"); ("userID", Num 1)] store_down
           (StoreError (Str "ECONNREFUSED") Undefined) []
           eq_refl eq_refl eq_refl).
Defined.

Lemma register_stores_body_witness :
  exists w' row,
    Auth.register (dialect := plain_dialect) (crypto := toy_crypto)
      (Request (Obj []) (Obj (registration ++ [("roleID", Num 1)])) Undefined)
      sample_world = (Resolved tt, w') /\
    Db.table (db w') "user" = Db.table sample_db "user" ++ [row] /\
    get row "roleID" = Num 1.
Proof.
  assert (Hk : forall key, In key Auth.required ->
                 In key (keys (registration ++ [("roleID", Num 1)]))).
  { intros key Hk. simpl in Hk. simpl.
    repeat (destruct Hk as [<-|Hk]; [tauto|]). destruct Hk. }
  destruct (register_stores_body
              (dialect := plain_dialect) (crypto := toy_crypto)
              (Request (Obj []) (Obj (registration ++ [("roleID", Num 1)]))
                 Undefined)
              (registration ++ [("roleID", Num 1)]) "engine" sample_world
              eq_refl Hk eq_refl eq_refl)
    as (w' & row & E & Ht & _ & Hrow).
  exists w', row. split; [exact E|]. split; [exact Ht|].
  rewrite (Hrow "roleID"); [reflexivity|simpl; tauto|discriminate].
Defined.

Lemma presence_checks_witness :
  Auth.refresh (dialect := plain_dialect) (crypto := toy_crypto)
    (refreshing 0 "0c0ffee") sample_world =
    (Resolved tt,
     say sample_world
       [Next (Some (HttpError Http.BadRequest
                      (Str "Request must contain refresh token and user ID")))]).
Proof.
  exact (proj2 (presence_checks
                  (dialect := plain_dialect) (crypto := toy_crypto)
                  (refreshing 0 "0c0ffee")
                  [("refreshToken", Str "0c0ffee"); ("userID", Num 0)]
                  sample_world eq_refl) eq_refl).
Defined.

End SessionFacts.

Module KitFacts.

Import Js JsFacts PromiseFacts.

Lemma sortIndexed_Forall (P Q : object -> Prop) (results : list object) :
  (forall r i, P r -> Q (set r "sortIndex" (Num i))) ->
  Forall P results -> forall i, Forall Q (Endpoint.sortIndexed i results).
Proof.
  intros HPQ H. induction H as [|r rs Hr Hrs IH]; intros i; simpl;
    constructor; auto.
Qed.

Section Controller.
Context {dialect : Db.Dialect} {paginate : Paginate} {formatter : Formatter}.

(** The rows a kit-model mutation touches: the model of the path within
    the kit of the path. *)
Lemma kit_touched (req : request) (v : value) (o : object) :
  Db.touched
    (Db.scoped "kitModel" (Str "modelID") v (Boolean false)
       (Some (Kit.withKitID req))) o =
    Db.equal (get o "modelID") v &&
    Db.equal (get o "kitID") (prop (params req) "kitID").
Proof.
  unfold Db.touched, Db.satisfies. cbn.
  destruct (includes (map fst o) "kitID") eqn:E; [reflexivity|].
  now rewrite (DbFacts.get_absent o "kitID") by exact E.
Qed.

Lemma update_calm t c v payload org m m' (w : world) :
  faults w = [] ->
  let d' := Db.set_table (db w) t
              (map (fun o => if Db.touched (Db.scoped t c v org m) o
                             then Db.assign o payload else o)
                   (Db.table (db w) t)) in
  Db.update t c v payload org m m' w =
    (Resolved match Db.rows d' (Db.scoped t c v org m') with
              | [] => Undefined
              | r :: _ => Obj r
              end, with_db w d').
Proof.
  intros Hf d'. unfold Db.update.
  rewrite (bind_resolved _ _ w w tt) by now apply external_calm.
  reflexivity.
Qed.

(** X11. The kit-model routes never read the user: updating and deleting
    a kit model go to the gateway without an organization and with the
    kit of the path chained on the query, so that the rows changed or
    removed are exactly those whose model and kit the store finds equal to
    the path's, and every other row stays as it is. *)
Theorem kit_models_scoped (req : request) (ps : object) (w : world) :
  params req = Obj ps -> faults w = [] ->
  let hit := fun o => Db.equal (get o "modelID") (get ps "modelID") &&
                      Db.equal (get o "kitID") (get ps "kitID") in
  let existing := Db.table (db w) "kitModel" in
  (exists w',
     Kit.deleteKitModel req w = (Resolved tt, w') /\
     db w' = Db.set_table (db w) "kitModel"
               (filter (fun o => negb (hit o)) existing) /\
     out w' = out w ++
              [if (0 <? length (filter hit existing))%nat
               then Send 200 (Obj [("message", Str "Deleted");
                                   ("id", get ps "modelID")])
               else Send 204 Undefined;
               Next None]) /\
  (exists w',
     Kit.updateKitModel req w = (Resolved tt, w') /\
     db w' = Db.set_table (db w) "kitModel"
               (map (fun o => if hit o
                              then Db.assign o (as_object (body req)) else o)
                    existing)).
Proof.
  intros Hp Hf hit existing.
  assert (Hhit : forall o,
             Db.touched
               (Db.scoped "kitModel" (Str "modelID") (get ps "modelID")
                  (Boolean false) (Some (Kit.withKitID req))) o = hit o)
    by (intros o; rewrite kit_touched, Hp; reflexivity).
  split.
  - unfold Kit.deleteKitModel, Endpoint.delete. rewrite Hp, member_Obj.
    rewrite (bind_resolved _ _ w w (get ps "modelID")) by reflexivity.
    rewrite (bind_resolved _ _ w w (Boolean false)) by reflexivity.
    cbn [Endpoint.bindModify Endpoint.modify Kit.unscoped Endpoint.messages].
    pose proof (DbFacts.delete_calm "kitModel" (Str "modelID")
                  (get ps "modelID") (Boolean false)
                  (Some (Kit.withKitID req)) w Hf) as Ed.
    cbv zeta in Ed. fold existing in Ed. unfold Db.count in Ed.
    rewrite (filter_ext
               (fun o => negb (Db.touched
                                 (Db.scoped "kitModel" (Str "modelID")
                                    (get ps "modelID") (Boolean false)
                                    (Some (Kit.withKitID req))) o))
               (fun o => negb (hit o))) in Ed
      by (intros o; now rewrite Hhit).
    rewrite (filter_ext _ _ Hhit) in Ed.
    unfold catch. rewrite (bind_resolved _ _ _ _ _ Ed).
    destruct (0 <? length (filter hit existing))%nat;
      (eexists; split; [reflexivity|]; split; [reflexivity|]);
      cbn; now rewrite <- app_assoc.
  - unfold Kit.updateKitModel, Endpoint.update. rewrite Hp, member_Obj.
    rewrite (bind_resolved _ _ w w (get ps "modelID")) by reflexivity.
    rewrite (bind_resolved _ _ w w (Boolean false)) by reflexivity.
    cbn [Endpoint.bindModify Endpoint.modify Endpoint.resModify Kit.unscoped
         Endpoint.messages].
    pose proof (update_calm "kitModel" (Str "modelID") (get ps "modelID")
                  (as_object (body req)) (Boolean false)
                  (Some (Kit.withKitID req)) None w Hf) as Eu.
    cbv zeta in Eu. fold existing in Eu.
    rewrite (map_ext _ (fun o => if hit o
                                 then Db.assign o (as_object (body req)) else o))
      in Eu by (intros o; now rewrite Hhit).
    unfold catch. rewrite (bind_resolved _ _ _ _ _ Eu).
    eexists. split; reflexivity.
Qed.

(** X12. [createKitModel] answers BadRequest and stores nothing when the
    body has no truthy [modelID].  Otherwise the row it has the gateway
    insert is the body with [kitID] set from the path: a [kitID] sent in
    the body is overwritten, every other field is stored as sent, and no
    organization is filled in. *)
Theorem createKitModel_checks (req : request) (b ps : object) (w : world) :
  body req = Obj b -> params req = Obj ps ->
  (truthy (get b "modelID") = false ->
   Kit.createKitModel req w =
     (Resolved tt,
      say w [Next (Some (HttpError Http.BadRequest
                           (Str "missing modelID in body")))])) /\
  (truthy (get b "modelID") = true -> faults w = [] ->
   exists w' row,
     Kit.createKitModel req w = (Resolved tt, w') /\
     Db.table (db w') "kitModel" = Db.table (db w) "kitModel" ++ [row] /\
     get row "kitID" = get ps "kitID" /\
     forall k, In k (keys b) -> k <> "kitID" -> get row k = get b k).
Proof.
  intros Hb Hp. split.
  - intros Hm. unfold Kit.createKitModel. rewrite Hb, member_Obj.
    rewrite (bind_resolved _ _ w w (get b "modelID")) by reflexivity.
    now rewrite Hm.
  - intros Hm Hf. unfold Kit.createKitModel. rewrite Hb, member_Obj.
    rewrite (bind_resolved _ _ w w (get b "modelID")) by reflexivity.
    rewrite Hm, Hp, member_Obj.
    rewrite (bind_resolved _ _ w w (get ps "kitID")) by reflexivity.
    set (req' := set_body req "kitID" (get ps "kitID")).
    assert (Hb' : body req' = Obj (set b "kitID" (get ps "kitID")))
      by (subst req'; unfold set_body; now rewrite Hb).
    destruct (EndpointFacts.create_stores "kitModel" Null (Kit.unscoped None)
                req' req' _ w eq_refl Hb' Hf) as (outcome & w' & E & Hd & Ho).
    rewrite Ho in E by (intros type H; discriminate H).
    eexists w', _. split; [exact E|].
    rewrite Hd. split; [apply DbFacts.table_set_table|]. split.
    + rewrite DbFacts.stored_get; [apply get_set_same|].
      apply includes_In. clear. induction b as [|[k v] b IH]; simpl; auto.
      destruct (k =? "kitID") eqn:E; simpl; auto.
      left. now apply String.eqb_eq.
    + intros k Hin Hne.
      rewrite DbFacts.stored_get
        by now apply keys_set, includes_In.
      apply get_set_other. congruence.
Qed.

(** The selection that [withModelDetails] chains decides the columns of a
    listed kit model. *)
Lemma kit_model_project (req : request) (search : option (list string * value))
    (jr : Db.jrow) :
  let q := Db.listing "kitModel" (Boolean false)
             (Some (Kit.withModelDetails req)) [] search in
  Db.project q jr =
    [ ("kitID", Db.column "kitModel" jr "kitID");
      ("quantity", Db.column "kitModel" jr "quantity");
      ("modelID", Db.column "kitModel" jr "model.modelID");
      ("model", Db.column "kitModel" jr "model.name");
      ("brandID", Db.column "kitModel" jr "brand.brandID");
      ("brand", Db.column "kitModel" jr "brand.name") ].
Proof. destruct search as [[cols v]|]; reflexivity. Qed.

Lemma kit_model_rows (req : request) (search : option (list string * value))
    (d : database) :
  let q := Db.listing "kitModel" (Boolean false)
             (Some (Kit.withModelDetails req)) [] search in
  Forall (fun r =>
            keys r = ["kitID"; "quantity"; "modelID"; "model"; "brandID"; "brand"] /\
            Db.equal (get r "kitID") (prop (params req) "kitID") = true)
         (Db.rows d q).
Proof.
  cbv zeta. apply Forall_forall. intros r Hin.
  unfold Db.rows in Hin. apply in_map_iff in Hin.
  destruct Hin as (jr & <- & Hjr).
  rewrite (kit_model_project req search jr). split; [reflexivity|].
  apply DbFacts.run_sound in Hjr. destruct Hjr as [_ Hs].
  assert (Hn : forallb Db.narrow
                 (Db.flatten
                    (Db.q_clauses
                       (Db.listing "kitModel" (Boolean false)
                          (Some (Kit.withModelDetails req)) [] search))) = true)
    by (destruct search as [[cols v]|]; reflexivity).
  pose proof (DbFacts.satisfies_In _ _ _
                (Db.Where "kitID" (prop (params req) "kitID")) Hn Hs) as H.
  cbn [get String.eqb Ascii.eqb Bool.eqb].
  apply H.
  destruct search as [[cols v]|]; simpl; auto.
Qed.

(** X13. Without a search parameter, every kit model that
    [getAllKitModels] lists has a [kitID] that the store finds equal to
    the path's and exactly the columns that [withModelDetails] selects,
    under the names it gives them, followed by the sort index. *)
Theorem getAllKitModels_shape (req : request) (ps : object) (w : world) :
  params req = Obj ps -> truthy (get ps "search") = false -> faults w = [] ->
  exists w' links results,
    Kit.getAllKitModels req w = (Resolved tt, w') /\
    out w' = out w ++ links ++
             [Send 200 (Obj [("results", Arr (map Obj results))]); Next None] /\
    Forall (fun r =>
              keys r = ["kitID"; "quantity"; "modelID"; "model"; "brandID";
                        "brand"; "sortIndex"] /\
              Db.equal (get r "kitID") (get ps "kitID") = true)
           results.
Proof.
  intros Hp Hs Hf. unfold Kit.getAllKitModels, Endpoint.getAll.
  rewrite Hp, member_Obj.
  rewrite (bind_resolved _ _ w w (get ps "search")) by reflexivity.
  rewrite (bind_resolved _ _ w w (Boolean false)) by reflexivity.
  cbn [Endpoint.bindModify Endpoint.modify Kit.unscoped Endpoint.messages
       Endpoint.sortBy Endpoint.searchColumns].
  rewrite Hs. set (search := @None (list string * value)).
  unfold catch.
  rewrite (bind_resolved _ _ _ _ _
             (DbFacts.getAll_calm "kitModel" (Boolean false)
                (Some (Kit.withModelDetails req)) [] search w Hf)).
  set (results := Endpoint.sortIndexed 0 _).
  assert (HF : Forall (fun r =>
                keys r = ["kitID"; "quantity"; "modelID"; "model"; "brandID";
                          "brand"; "sortIndex"] /\
                Db.equal (get r "kitID") (get ps "kitID") = true) results).
  { subst results.
    eapply sortIndexed_Forall; [|exact (kit_model_rows req search (db w))].
    intros r i [Hk Hg]. rewrite Hp in Hg. split.
    - destruct r as [|[k1 v1] [|[k2 v2] [|[k3 v3] [|[k4 v4] [|[k5 v5]
        [|[k6 v6] [|]]]]]]]; try discriminate Hk.
      injection Hk as -> -> -> -> -> ->. reflexivity.
    - rewrite get_set_other by discriminate. exact Hg. }
  destruct (truthy (Endpoint.paginated req)).
  - assert (Ha : addLinks req "kitModel" w =
                 (Resolved tt, say w [Links (link_relations req "kitModel" (db w))])).
    { unfold addLinks.
      rewrite (bind_resolved _ _ w w tt) by now apply external_calm.
      reflexivity. }
    rewrite (bind_resolved _ _ _ _ _ Ha).
    exists (say w [Links (link_relations req "kitModel" (db w));
                   Send 200 (Obj [("results", Arr (map Obj results))]);
                   Next None]),
           [Links (link_relations req "kitModel" (db w))], results.
    split; [|split; [reflexivity|exact HF]].
    unfold bind, res_send, next, emit, say. simpl. now rewrite <- !app_assoc.
  - exists (say w [Send 200 (Obj [("results", Arr (map Obj results))]);
                   Next None]), [], results.
    split; [|split; [reflexivity|exact HF]].
    unfold bind, res_send, next, emit, say. simpl. now rewrite <- !app_assoc.
Qed.

End Controller.

Lemma createKitModel_checks_witness :
  Kit.createKitModel (dialect := plain_dialect) (formatter := plain_formatter)
    (Request (Obj [("kitID", Str "1")]) (Obj [("quantity", Num 2)]) Undefined)
    sample_world =
    (Resolved tt,
     say sample_world
       [Next (Some (HttpError Http.BadRequest (Str "missing modelID in body")))]).
Proof.
  exact (proj1 (createKitModel_checks
                  (dialect := plain_dialect) (formatter := plain_formatter)
                  (Request (Obj [("kitID", Str "1")]) (Obj [("quantity", Num 2)])
                     Undefined)
                  [("quantity", Num 2)] [("kitID", Str "1")] sample_world
                  eq_refl eq_refl) eq_refl).
Defined.

Lemma getAllKitModels_shape_witness :
  let w :=
    World [("kitModel",
            [[("kitID", Num 1); ("modelID", Num 3); ("quantity", Num 2)];
             [("kitID", Num 2); ("modelID", Num 4); ("quantity", Num 1)]]);
           ("model",
            [[("modelID", Num 3); ("name", Str "XLR cable"); ("brandID", Num 5)];
             [("modelID", Num 4); ("name", Str "Tripod"); ("brandID", Num 5)]]);
           ("brand", [[("brandID", Num 5); ("name", Str "Neutrik")]])]
          [] [] [] in
  exists w' links results,
    Kit.getAllKitModels (dialect := plain_dialect) (formatter := plain_formatter) (paginate := offset_links)
      (Request (Obj [("kitID", Str "1")]) (Obj []) Undefined) w =
      (Resolved tt, w') /\
    out w' = links ++
             [Send 200 (Obj [("results", Arr (map Obj results))]); Next None] /\
    Forall (fun r =>
              keys r = ["kitID"; "quantity"; "modelID"; "model"; "brandID";
                        "brand"; "sortIndex"] /\
              by_value (get r "kitID") (Str "1") = true)
           results.
Proof.
  intros w.
  exact (getAllKitModels_shape
           (dialect := plain_dialect) (formatter := plain_formatter) (paginate := offset_links)
           (Request (Obj [("kitID", Str "1")]) (Obj []) Undefined)
           [("kitID", Str "1")] w eq_refl eq_refl eq_refl).
Defined.

Lemma kit_models_scoped_witness :
  exists w',
    Kit.deleteKitModel (dialect := plain_dialect) (formatter := plain_formatter)
      (Request (Obj [("kitID", Str "1"); ("modelID", Str "3")]) (Obj [])
         Undefined)
      (World [("kitModel",
               [[("kitID", Num 1); ("modelID", Num 3)];
                [("kitID", Num 2); ("modelID", Num 3)]])] [] [] []) =
      (Resolved tt, w') /\
    db w' = [("kitModel", [[("kitID", Num 2); ("modelID", Num 3)]])].
Proof.
  destruct (proj1 (kit_models_scoped
                     (dialect := plain_dialect) (formatter := plain_formatter)
                     (Request (Obj [("kitID", Str "1"); ("modelID", Str "3")])
                        (Obj []) Undefined)
                     [("kitID", Str "1"); ("modelID", Str "3")]
                     (World [("kitModel",
                              [[("kitID", Num 1); ("modelID", Num 3)];
                               [("kitID", Num 2); ("modelID", Num 3)]])]
                        [] [] [])
                     eq_refl eq_refl))
    as (w' & E & Hd & _).
  exists w'. split; [exact E|exact Hd].
Defined.

End KitFacts.
